(** * netwatch: the telemetry pipeline of [main.go]

    A shallow embedding of the history ring, the collector, the statistics
    and drawing passes of [plotRing], panel parsing and the start-up checks
    of [main], followed by the properties of the specification that were
    checked against them.

    Conventions.
    - [int32] and [int] values are [Z]; every [int32] operation of the source
      is written with its wrap-around ([add32], [sub32], [mul32]).
    - [float64] is Rocq's primitive binary64 [float]; the comparisons of the
      source ([v > maxv], [v < minv], [v > 0]) are [PrimFloat.ltb].
    - [*ring.Ring] (container/ring) is the list of the ring's values read
      from the element the pointer designates, going forward.
    - The SDL renderer is a record holding the current draw colour and the
      primitives drawn so far; a Go panic is [None]. *)

From Stdlib Require Import ZArith Lia List Floats String Ascii Bool.
From stdpp Require Import base option list strings gmap.

Local Open Scope Z_scope.

(* ================================================================= *)
(** ** Machine integers *)

(** The value of type [int32] congruent to [z] modulo 2^32. *)
Definition int32 (z : Z) : Z := (z + 2 ^ 31) mod 2 ^ 32 - 2 ^ 31.

Definition add32 (a b : Z) : Z := int32 (a + b).
Definition sub32 (a b : Z) : Z := int32 (a - b).
Definition mul32 (a b : Z) : Z := int32 (a * b).

Definition in_int32 (z : Z) : bool := (- 2 ^ 31 <=? z) && (z <? 2 ^ 31).

(* ================================================================= *)
(** ** Floating point *)

(** [float64(i)] for an [int32] value [i]: exact, since |i| <= 2^31. *)
Definition float64_of_int (i : Z) : float :=
  if 0 <=? i then PrimFloat.of_uint63 (Uint63.of_Z i)
  else PrimFloat.opp (PrimFloat.of_uint63 (Uint63.of_Z (- i))).

(** The integer part of a finite float (rounding toward zero); [None] for
    NaN and the infinities. *)
Definition trunc (f : float) : option Z :=
  match Prim2SF f with
  | S754_zero _ => Some 0
  | S754_finite s m e =>
      let a := if 0 <=? e then Z.pos m * 2 ^ e else Z.pos m / 2 ^ (- e) in
      Some (if s then - a else a)
  | S754_infinity _ | S754_nan => None
  end.

(** [math.IsNaN]. *)
Definition IsNaN (f : float) : bool := PrimFloat.is_nan f.

(* ================================================================= *)
(** ** Layout constants and colours (the [var] block of main.go) *)

Record Color := mkColor { cR : Z; cG : Z; cB : Z; cA : Z }.

Definition windowMargin : Z := 5.
Definition panelHeight : Z := 45.
Definition targetSize : Z := 90.

Definition errColor : Color := mkColor 0xFF 0x64 0x64 0xFF.
Definition plotColors : list Color :=
  [ mkColor 0x00 0xFF 0x00 0xFF;
    mkColor 0x00 0x00 0xFF 0xFF;
    mkColor 0xFF 0x7F 0x00 0xFF ].

(** The package variables that [main] assigns after start-up. *)
Record Globals := mkGlobals {
  windowWidth : Z;
  windowHeight : Z;
  panelWidth : Z;
  fg : Color;
  bg : Color
}.

(** Their initial values; [panelWidth = windowWidth - (windowMargin * 2)]. *)
Definition initGlobals : Globals :=
  let ww := 180 in
  {| windowWidth := ww;
     windowHeight := 100;
     panelWidth := sub32 ww (mul32 windowMargin 2);
     fg := mkColor 0xFF 0xFF 0xFF 0xFF;
     bg := mkColor 0x64 0x64 0x64 0xFF |}.

(* ================================================================= *)
(** ** container/ring *)

(** A sample: the [[]float64] a probe sends. *)
Abbreviation Sample := (list float).

(** [Ring.Value]: an [interface{}] that is either nil or holds a sample. *)
Abbreviation Value := (option (list float)).

(** A [*ring.Ring] [r]: the values of [r], [r.Next()], [r.Next().Next()], ...
    once around.  The nil ring is [[]]. *)
Abbreviation Ring := (list (option (list float))).

(** [ring.New(n)]: [n] elements with nil values, nil when [n <= 0]. *)
Definition ringNew (n : Z) : Ring := replicate (Z.to_nat n) None.

(** [r.Len()]. *)
Definition ringLen (r : Ring) : nat := length r.

(** [r.Next()]; dereferencing the nil ring panics. *)
Definition ringNext (r : Ring) : option Ring :=
  match r with
  | [] => None
  | x :: xs => Some (xs ++ [x])
  end.

(** [r.Value = v]; dereferencing the nil ring panics. *)
Definition ringSetValue (r : Ring) (v : Sample) : option Ring :=
  match r with
  | [] => None
  | _ :: xs => Some (Some v :: xs)
  end.

(** [r.Do(f)] for a closure [f] that updates captured variables of type [S]:
    the elements are visited forward, starting at [r]. *)
Definition ringDo {S : Type} (f : S -> Value -> S) (r : Ring) (s : S) : S :=
  fold_left f r s.

(** [r.Do(f)] for a closure that may panic. *)
Fixpoint ringDoM {S : Type} (f : S -> Value -> option S) (r : Ring) (s : S)
  : option S :=
  match r with
  | [] => Some s
  | x :: xs => match f s x with
               | Some s' => ringDoM f xs s'
               | None => None
               end
  end.

(** [data, _ = x.([]float64)]: the zero value (a nil slice) when the
    assertion fails. *)
Definition assertSample (x : Value) : Sample :=
  match x with
  | Some d => d
  | None => []
  end.

(* ================================================================= *)
(** ** plotRing, first pass: statistics *)

Record Stats := mkStats {
  minv : float;
  maxv : float;
  lst : float;
  tot : float;
  cnt : Z;          (* the counter [i] *)
  data : Sample     (* the captured [data] *)
}.

Definition initStats : Stats :=
  {| minv := 10000%float; maxv := 0%float; lst := 0%float; tot := 0%float;
     cnt := 0; data := [] |}.

(** The body of [for _, v := range data]. *)
Definition accumulate (s : Stats) (v : float) : Stats :=
  let maxv' := if PrimFloat.ltb (maxv s) v then v else maxv s in
  let minv' := if PrimFloat.ltb v (minv s) then v else minv s in
  let pos := PrimFloat.ltb 0%float v in
  {| minv := minv';
     maxv := maxv';
     lst := v;
     tot := if pos then PrimFloat.add (tot s) v else tot s;
     cnt := if pos then add32 (cnt s) 1 else cnt s;
     data := data s |}.

(** The closure passed to the first [r.Do]. *)
Definition statsVisit (s : Stats) (x : Value) : Stats :=
  let d := assertSample x in
  fold_left accumulate d
    {| minv := minv s; maxv := maxv s; lst := lst s; tot := tot s;
       cnt := cnt s; data := d |}.

Definition statsPass (r : Ring) : Stats := ringDo statsVisit r initStats.

(** [avg = tot / float64(i)]. *)
Definition average (s : Stats) : float :=
  PrimFloat.div (tot s) (float64_of_int (cnt s)).

(* ================================================================= *)
(** ** The renderer *)

(** The texts [plotRing] draws: the host name, and the statistics line
    [Sprintf("L=%.1f M=%.1f A=%.1f", lst, maxv, avg)], kept unformatted. *)
Inductive Label :=
| HostLabel (host : string)
| StatLabel (l m a : float).

(** What reaches the drawing surface, each with the colour it is drawn in. *)
Inductive Prim :=
| Cleared (c : Color)
| Rect (c : Color) (x y w h : Z)
| Line (c : Color) (x1 y1 x2 y2 : Z)
| Text (c : Color) (x y : Z) (t : Label).

Record Renderer := mkRenderer {
  drawColor : Color;
  frame : list Prim
}.

Definition SetDrawColor (c : Color) (rd : Renderer) : Renderer :=
  {| drawColor := c; frame := frame rd |}.

Definition Clear (rd : Renderer) : Renderer :=
  {| drawColor := drawColor rd; frame := [Cleared (drawColor rd)] |}.

Definition DrawRect (x y w h : Z) (rd : Renderer) : Renderer :=
  {| drawColor := drawColor rd;
     frame := frame rd ++ [Rect (drawColor rd) x y w h] |}.

Definition DrawLine (x1 y1 x2 y2 : Z) (rd : Renderer) : Renderer :=
  {| drawColor := drawColor rd;
     frame := frame rd ++ [Line (drawColor rd) x1 y1 x2 y2] |}.

(** [drawText]: the text is rendered in the colour passed to it. *)
Definition drawText (color : Color) (x y : Z) (t : Label) (rd : Renderer)
  : Renderer :=
  {| drawColor := drawColor rd; frame := frame rd ++ [Text color x y t] |}.

(* ================================================================= *)
(** ** plotRing, second pass: drawing *)

Section Plot.

(** The Go specification leaves the conversion of a float that is NaN or out
    of the range of [int32] to the implementation; [indefinite f] is what the
    platform yields for such an [f]. *)
Variable indefinite : float -> Z.

(** [int32(f)]. *)
Definition int32_of_float (f : float) : Z :=
  match trunc f with
  | Some z => if in_int32 z then z else int32 (indefinite f)
  | None => int32 (indefinite f)
  end.

(** The closure [vh]: [int32((v/maxv)*float64(panelHeight-2)) - 1]. *)
Definition vh (mx v : float) : Z :=
  sub32
    (int32_of_float
       (PrimFloat.mul (PrimFloat.div v mx)
          (float64_of_int (sub32 panelHeight 2))))
    1.

(** The height [h] and the draw colour chosen for the value [v] of series
    [j]; indexing [plotColors] out of range would panic. *)
Definition chooseColumn (mx : float) (j : nat) (v : float) (rd : Renderer)
  : option (Z * Renderer) :=
  if IsNaN v then
    Some (sub32 panelHeight 1, SetDrawColor errColor rd)
  else if PrimFloat.ltb 0%float v then
    if (j <? length plotColors)%nat then
      match plotColors !! j with
      | Some c => Some (vh mx v, SetDrawColor c rd)
      | None => None
      end
    else Some (vh mx v, rd)
  else
    Some (2, SetDrawColor (mkColor 0x00 0xFF 0x00 0xFF) rd).

(** The body of [for j, v := range data] in the second pass, for the ring
    slot drawn at column [i]. *)
Definition drawValue (mx : float) (vs i : Z) (prev : Sample)
    (j : nat) (v : float) (rd : Renderer) : option Renderer :=
  match chooseColumn mx j v rd with
  | None => None
  | Some (h, rd1) =>
      let x := add32 windowMargin i in
      let y := add32 (add32 (add32 vs windowMargin) panelHeight) 13 in
      if (0 <? j)%nat && (j <? length prev)%nat then
        match prev !! j with
        | Some p =>
            let y1 := sub32 y (Z.min (vh mx v) (vh mx p)) in
            let y2 := sub32 y (Z.max (vh mx v) (vh mx p)) in
            Some (DrawLine x y1 x y2 rd1)
        | None => None
        end
      else
        Some (DrawLine x (sub32 y h) x y rd1)
  end.

(** The loop over the values of one sample, [j] counting from its argument. *)
Fixpoint drawSeries (mx : float) (vs i : Z) (prev : Sample)
    (j : nat) (d : Sample) (rd : Renderer) : option Renderer :=
  match d with
  | [] => Some rd
  | v :: d' =>
      match drawValue mx vs i prev j v rd with
      | Some rd' => drawSeries mx vs i prev (S j) d' rd'
      | None => None
      end
  end.

(** The variables the second closure captures and updates. *)
Record DrawState := mkDrawState {
  d_data : Sample;
  d_i : Z;
  d_rd : Renderer
}.

(** The closure passed to the second [r.Do]. *)
Definition drawVisit (mx : float) (vs : Z) (st : DrawState) (x : Value)
  : option DrawState :=
  let prev := d_data st in
  let d := assertSample x in
  match drawSeries mx vs (d_i st) prev 0 d (d_rd st) with
  | Some rd' =>
      Some {| d_data := d; d_i := add32 (d_i st) 1; d_rd := rd' |}
  | None => None
  end.

Definition drawPass (mx : float) (vs : Z) (r : Ring) (st : DrawState)
  : option DrawState :=
  ringDoM (drawVisit mx vs) r st.

(** [plotRing(r, host, tgtnum, renderer, font, fg)]; the parameter [fg]
    shadows the package variable and is named [color] here. *)
Definition plotRing (g : Globals) (r : Ring) (host : string) (tgtnum : Z)
    (rd : Renderer) (color : Color) : option Renderer :=
  let vs := add32 (mul32 tgtnum targetSize) 1 in
  let rd := SetDrawColor color rd in
  let rd := DrawRect windowMargin (add32 (add32 vs windowMargin) 15)
              (sub32 (windowWidth g) (mul32 windowMargin 2)) panelHeight rd in
  let rd := drawText color windowMargin (sub32 (add32 vs windowMargin) 3)
              (HostLabel host) rd in
  let s := statsPass r in
  let avg := average s in
  match drawPass (maxv s) vs r
          {| d_data := data s; d_i := 0; d_rd := rd |} with
  | Some st =>
      Some (drawText color windowMargin
              (add32 (add32 (add32 vs windowMargin) panelHeight) 15)
              (StatLabel (lst s) (maxv s) avg) (d_rd st))
  | None => None
  end.

(* ================================================================= *)
(** ** Panels and the collector (the render loop of [main]) *)

(** The channel of a panel is represented by what a non-blocking receive
    finds on it at each tick. *)
Record panel := mkPanel {
  typ : string;
  target : string;
  ring : Ring
}.

(** The [select] of the render loop: with a sample ready, store it in the
    ring and advance; otherwise take the [default] branch. *)
Definition collect (g : Globals) (p : panel) (recv : option Sample)
  : option (panel * Color) :=
  match recv with
  | Some v =>
      match ringSetValue (ring p) v with
      | Some r1 =>
          match ringNext r1 with
          | Some r2 =>
              Some ({| typ := typ p; target := target p; ring := r2 |}, fg g)
          | None => None
          end
      | None => None
      end
  | None => Some (p, errColor)
  end.

(** One iteration of [for i, panel := range panels]. *)
Definition tickPanel (g : Globals) (i : nat) (p : panel)
    (recv : option Sample) (rd : Renderer) : option (panel * Renderer) :=
  match collect g p recv with
  | Some (p', color) =>
      match plotRing g (ring p') (target p') (int32 (Z.of_nat i)) rd color with
      | Some rd' => Some (p', rd')
      | None => None
      end
  | None => None
  end.

(** The loop over the panels from index [i] on; [recv k] is what the
    channel of panel [k] holds at this tick.  The panels are pointers:
    reading the channel of a nil one panics. *)
Fixpoint tickPanels (g : Globals) (i : nat) (ps : list (option panel))
    (recv : nat -> option Sample) (rd : Renderer)
  : option (list (option panel) * Renderer) :=
  match ps with
  | [] => Some ([], rd)
  | None :: _ => None
  | Some p :: ps' =>
      match tickPanel g i p (recv i) rd with
      | Some (p', rd') =>
          match tickPanels g (S i) ps' recv rd' with
          | Some (ps'', rd'') => Some (Some p' :: ps'', rd'')
          | None => None
          end
      | None => None
      end
  end.

(** One tick of the render loop: clear in the background colour, collect and
    plot every panel; the frame of the result is what [Present] shows. *)
Definition tick (g : Globals) (ps : list (option panel))
    (recv : nat -> option Sample) (rd : Renderer)
  : option (list (option panel) * Renderer) :=
  let b := bg g in
  let rd := Clear (SetDrawColor (mkColor (cR b) (cG b) (cB b) 0xFF) rd) in
  tickPanels g 0 ps recv rd.

End Plot.

(** The conversion on amd64, where CVTTSD2SL yields the integer indefinite
    value 0x80000000. *)
Definition amd64 : float -> Z := fun _ => - 2 ^ 31.

(* ================================================================= *)
(** ** Errors *)

(** An [error] built by [fmt.Errorf], kept as the call that built it: the
    format and its operands ([%q], [%s] take a string, [%w] an error). *)
Inductive error :=
| Errorf (format : string) (args : list string)
| Wrapf (format : string) (s : string) (e : error).

Inductive result (A : Type) :=
| Ok (a : A)
| Err (e : error).
Arguments Ok {A} a.
Arguments Err {A} e.

(* ================================================================= *)
(** ** The probe registry *)

(** A probe [func(string, chan []float64) error], as the error it returns
    for a target; the producer it starts is represented by what the panel's
    channel delivers at each tick. *)
Definition probe := string -> option error.

(** The three registered probes start their producer and return nil. *)
Definition sineProbe : probe := fun _ => None.
Definition lagsineProbe : probe := fun _ => None.
Definition multiProbe : probe := fun _ => None.

Definition probes : gmap string probe :=
  {[ "sine"%string := sineProbe;
     "lagsine"%string := lagsineProbe;
     "multi"%string := multiProbe ]}.

(* ================================================================= *)
(** ** parsePanels *)

(** [strings.Split(s, sep)] for a separator of one byte. *)
Fixpoint Split (s : string) (sep : ascii) : list string :=
  match s with
  | EmptyString => [EmptyString]
  | String c rest =>
      if Ascii.eqb c sep then EmptyString :: Split rest sep
      else match Split rest sep with
           | t :: ts => String c t :: ts
           | [] => [String c EmptyString]
           end
  end.

(** [int(^byte(0))]. *)
Definition maxTargets : Z := Z.lxor 0 0xFF.

(** The loop [for i, arg := range args] over the arguments from index [i]
    on; [a] is the slice of panel pointers being filled (nil is [None]). *)
Fixpoint parseLoop (g : Globals) (i : nat) (args : list string)
    (a : list (option panel)) : result (list (option panel)) :=
  match args with
  | [] => Ok a
  | arg :: rest =>
      let tokens := Split arg ":"%char in
      if negb (length tokens =? 2)%nat then
        Err (Errorf "Could not parse panel: %q" [arg])
      else
        let t0 := nth 0 tokens EmptyString in
        let t1 := nth 1 tokens EmptyString in
        match probes !! t0 with
        | None => Err (Errorf "Unsupported panel type: %q" [t0])
        | Some p =>
            match p t1 with
            | Some err => Err (Wrapf "Error initializing %s: %w" t0 err)
            | None =>
                let pn := {| typ := t0; target := t1;
                             ring := ringNew (sub32 (panelWidth g) 2) |} in
                parseLoop g (S i) rest (<[ i := Some pn ]> a)
            end
        end
  end.

Definition parsePanels (g : Globals) (args : list string)
  : result (list (option panel)) :=
  if Z.of_nat (length args) <? 1 then
    Err (Errorf "No args specified" [])
  else if Z.of_nat (length args) >? maxTargets then
    Err (Errorf "Too many targets specified" [])
  else
    parseLoop g 0 args (replicate (length args) None).

(* ================================================================= *)
(** ** Start-up: the checks of [main] before the render loop *)

(** How [main] leaves its start-up phase. *)
Inductive Startup :=
| Detached                       (* re-executed with -f, then os.Exit(0) *)
| ErrBox (e : error)             (* errbox: message box, then os.Exit(1) *)
| Running (g : Globals) (panels : list (option panel)).

(** The exit status of the process, when start-up ends it. *)
Definition exitCode (s : Startup) : option Z :=
  match s with
  | Detached => Some 0
  | ErrBox _ => Some 1
  | Running _ _ => None
  end.

(** Storing the values scanned so far into [&c.R, &c.G, &c.B], in order. *)
Definition storeRGB (c : Color) (vals : list Z) : Color :=
  match vals with
  | [] => c
  | [r] => mkColor r (cG c) (cB c) (cA c)
  | [r; g] => mkColor r g (cB c) (cA c)
  | r :: g :: b :: _ => mkColor r g b (cA c)
  end.

Section Main.

(** [fmt.Sscanf(s, "%2x%2x%2x", &c.R, &c.G, &c.B)] of the Go library: the
    values it stored, in order (their number is its result [n]), and whether
    its error is non-nil. *)
Variable Sscanf : string -> list Z * bool.

(** One of the two colour options: scanned only when six bytes long. *)
Definition colorOption (s : string) (failure : string) (c : Color)
  : result Color :=
  if (String.length s =? 6)%nat then
    let '(vals, err) := Sscanf s in
    if err || negb (length vals =? 3)%nat then Err (Errorf failure [])
    else Ok (storeRGB c vals)
  else Ok c.

(** [main] up to the initialisation of SDL, which is where rendering
    starts; [foreground] is the flag -f, [args] the remaining arguments. *)
Definition startup (foreground : bool) (args : list string)
    (bgColor fgColor : string) : Startup :=
  if negb foreground then Detached
  else
    match parsePanels initGlobals args with
    | Err e => ErrBox e
    | Ok panels =>
        match colorOption bgColor "Unable to parse bg background color"
                (bg initGlobals) with
        | Err e => ErrBox e
        | Ok bg' =>
            match colorOption fgColor "Unable to parse fg foreground color"
                    (fg initGlobals) with
            | Err e => ErrBox e
            | Ok fg' =>
                Running
                  {| windowWidth := windowWidth initGlobals;
                     windowHeight := windowHeight initGlobals;
                     panelWidth := panelWidth initGlobals;
                     fg := fg'; bg := bg' |}
                  panels
            end
        end
    end.

End Main.

(** A run of the collector on one panel: [recvs] lists, tick by tick, what
    the non-blocking receive finds. *)
Fixpoint collectAll (g : Globals) (p : panel) (recvs : list (option Sample))
  : option panel :=
  match recvs with
  | [] => Some p
  | rv :: rest =>
      match collect g p rv with
      | Some (p', _) => collectAll g p' rest
      | None => None
      end
  end.

(** The samples a run received, in order. *)
Definition received (recvs : list (option Sample)) : list Sample :=
  omap id recvs.


(** The primitives that are line segments. *)
Definition isLine (p : Prim) : bool :=
  match p with
  | Line _ _ _ _ _ => true
  | _ => false
  end.

(** What [plotRing] draws around the chart of a panel: the border rectangle
    and the host label (before the lines), the statistics label (after). *)
Definition borderOf (g : Globals) (tgtnum : Z) (host : string) (color : Color)
  : list Prim :=
  let vs := add32 (mul32 tgtnum targetSize) 1 in
  [ Rect color windowMargin (add32 (add32 vs windowMargin) 15)
      (sub32 (windowWidth g) (mul32 windowMargin 2)) panelHeight;
    Text color windowMargin (sub32 (add32 vs windowMargin) 3)
      (HostLabel host) ].

Definition statLabelOf (tgtnum : Z) (color : Color) (s : Stats) : Prim :=
  let vs := add32 (mul32 tgtnum targetSize) 1 in
  Text color windowMargin
    (add32 (add32 (add32 vs windowMargin) panelHeight) 15)
    (StatLabel (lst s) (maxv s) (average s)).

(** Scenario A of the specification: a ring of capacity 10 and twelve ticks
    that each deliver a one-series sample, numbered 1 to 12. *)
Definition panelA : panel :=
  {| typ := "sine"; target := "localhost"; ring := ringNew 10 |}.

Definition ticksA : list (option Sample) :=
  map (fun k => Some [float64_of_int k]) (seqZ 1 12).

(** The sample of the slot visited last by [r.Do], [d0] for the nil ring:
    what the captured variable [data] holds after a pass that started with
    [d0] in it. *)
Definition lastSample (r : Ring) (d0 : Sample) : Sample :=
  match last r with
  | Some x => assertSample x
  | None => d0
  end.

(* ================================================================= *)
(** ** Vocabulary for the properties of panel parsing and start-up *)

(** The number of occurrences of the byte [sep] in [s]. *)
Fixpoint countByte (sep : ascii) (s : string) : nat :=
  match s with
  | EmptyString => 0
  | String c rest =>
      if Ascii.eqb c sep then S (countByte sep rest) else countByte sep rest
  end.

(** A token that does not split into exactly two parts at its colons; such
    a token is one that does not hold exactly one colon
    ([malformed_colons]). *)
Definition malformed (arg : string) : bool :=
  negb (length (Split arg ":"%char) =? 2)%nat.

(** The error the body of the loop of [parsePanels] returns for [arg], if
    any. *)
Definition checkArg (arg : string) : option error :=
  let tokens := Split arg ":"%char in
  if malformed arg then Some (Errorf "Could not parse panel: %q" [arg])
  else
    match probes !! nth 0 tokens EmptyString with
    | None =>
        Some (Errorf "Unsupported panel type: %q" [nth 0 tokens EmptyString])
    | Some p =>
        match p (nth 1 tokens EmptyString) with
        | Some err =>
            Some (Wrapf "Error initializing %s: %w"
                    (nth 0 tokens EmptyString) err)
        | None => None
        end
    end.

(** The first error among the tokens, in order. *)
Definition firstError (args : list string) : option error :=
  head (omap checkArg args).

(** The panel built for a token [type:target]. *)
Definition panelOf (g : Globals) (arg : string) : panel :=
  let tokens := Split arg ":"%char in
  {| typ := nth 0 tokens EmptyString;
     target := nth 1 tokens EmptyString;
     ring := ringNew (sub32 (panelWidth g) 2) |}.



(** Whether the scan of a colour string is rejected by [main]:
    [err != nil || n != 3]. *)
Definition scanFails (Sscanf : string -> list Z * bool) (s : string) : bool :=
  let '(vals, err) := Sscanf s in
  err || negb (length vals =? 3)%nat.

(** The value of a hexadecimal digit. *)
Definition hexDigit (c : ascii) : option Z :=
  let n := Z.of_nat (nat_of_ascii c) in
  if (48 <=? n) && (n <=? 57) then Some (n - 48)
  else if (97 <=? n) && (n <=? 102) then Some (n - 87)
  else if (65 <=? n) && (n <=? 70) then Some (n - 55)
  else None.

(** A scanner to run the examples with: it reads [k] groups of one or two
    hexadecimal digits and reports an error at any other byte and at the end
    of the input.  The properties below are proved for every scanner. *)
Fixpoint scanGroups (k : nat) (s : string) : list Z * bool :=
  match k with
  | O => ([], false)
  | S k' =>
      match s with
      | EmptyString => ([], true)
      | String c1 s1 =>
          match hexDigit c1 with
          | None => ([], true)
          | Some d1 =>
              let '(v, rest) :=
                match s1 with
                | String c2 s2 =>
                    match hexDigit c2 with
                    | Some d2 => (16 * d1 + d2, s2)
                    | None => (d1, s1)
                    end
                | EmptyString => (d1, s1)
                end in
              let '(vals, err) := scanGroups k' rest in
              (v :: vals, err)
          end
      end
  end.

Definition scanHex (s : string) : list Z * bool := scanGroups 3 s.

(* ================================================================= *)
(** ** Vocabulary for the properties of the statistics pass *)

(** Every value the ring holds, in the order [r.Do] meets them. *)
Definition ringValues (r : Ring) : list float :=
  List.concat (map assertSample r).

(** The strictly positive ones among them: the [v1..vk] of the
    specification. *)
Definition positives (r : Ring) : list float :=
  List.filter (PrimFloat.ltb 0%float) (ringValues r).

(** The sum of a list of floats, added from the left starting at 0. *)
Definition fsum (l : list float) : float :=
  fold_left PrimFloat.add l 0%float.

(** [s] with the captured [data] replaced. *)
Definition withData (d : Sample) (s : Stats) : Stats :=
  {| minv := minv s; maxv := maxv s; lst := lst s; tot := tot s;
     cnt := cnt s; data := d |}.

(** The statistics as the specification words them: the minimum of the
    positive values only, and the first-series value of the sample written
    last. *)
Definition claimedMin (r : Ring) : option float :=
  match positives r with
  | [] => None
  | v :: l =>
      Some (fold_left (fun m x => if PrimFloat.ltb x m then x else m) l v)
  end.

Definition claimedLast (r : Ring) : option float :=
  match last r with
  | Some (Some (v :: _)) => Some v
  | _ => None
  end.

(** The height as the specification words it: [value / max * panelHeight]. *)
Definition claimedHeight (mx v : float) : float :=
  PrimFloat.mul (PrimFloat.div v mx) (float64_of_int panelHeight).

(** A ring of capacity 3 after the samples [5], [0] and [1, 2] were written
    to it, in this order. *)
Definition ringB : Ring :=
  [Some [5%float]; Some [0%float]; Some [1%float; 2%float]].

(** A renderer on which nothing was drawn yet. *)
Definition blank : Renderer := {| drawColor := bg initGlobals; frame := [] |}.

(** The line segments of the chart that [plotRing] draws for a ring, as the
    first panel of the initial window. *)
Definition chartOf (indefinite : float -> Z) (r : Ring) : option (list Prim) :=
  option_map (fun rd => List.filter isLine (frame rd))
    (plotRing indefinite initGlobals r "h" 0 blank (fg initGlobals)).

(** The full-height column on the base line [y]:
    [h = panelHeight - 1], from [y - h] to [y]. *)
Definition fullHeight (y : Z) : Z * Z := (sub32 y (sub32 panelHeight 1), y).

(** The conversion on arm64, where FCVTZS yields 0 for a NaN and saturates
    otherwise. *)
Definition arm64 : float -> Z := fun f =>
  if PrimFloat.is_nan f then 0
  else if PrimFloat.ltb f 0%float then - 2 ^ 31
  else 2 ^ 31 - 1.

(** A ring of capacity 2 after the samples [1, 1] and [1, NaN]. *)
Definition ringN : Ring :=
  [Some [1%float; 1%float]; Some [1%float; nan]].

(* ================================================================= *)
(** ** Vocabulary for further properties of panel parsing *)

(** The names under which [probes] has an entry. *)
Definition registered (t : string) : bool :=
  String.eqb t "sine" || String.eqb t "lagsine" || String.eqb t "multi".

(** A string without a colon. *)
Definition colonFree (s : string) : Prop := countByte ":"%char s = 0%nat.

(** The token [type:target]. *)
Definition token (spec : string * string) : string :=
  (fst spec ++ String ":"%char (snd spec))%string.

(** The panel [&panel{typ, target, channel, ring.New(int(panelWidth - 2))}]
    for a type and a target. *)
Definition newPanel (g : Globals) (spec : string * string) : option panel :=
  Some {| typ := fst spec; target := snd spec;
          ring := ringNew (sub32 (panelWidth g) 2) |}.

(** The type and the target of a token: [tokens[0]] and [tokens[1]]. *)
Definition specOf (arg : string) : string * string :=
  (nth 0 (Split arg ":"%char) EmptyString,
   nth 1 (Split arg ":"%char) EmptyString).

(** A token the loop of [parsePanels] lets pass: [type:target] with a
    registered type and a target free of colons. *)
Definition accepted (arg : string) : Prop :=
  exists t x, arg = token (t, x) /\ registered t = true /\ colonFree x.

(** The two errors the loop of [parsePanels] reports for a token. *)
Definition tokenError (arg : string) (e : error) : Prop :=
  (countByte ":"%char arg <> 1%nat
   /\ e = Errorf "Could not parse panel: %q" [arg])
  \/ (exists t x, arg = token (t, x) /\ colonFree t /\ colonFree x
        /\ registered t = false
        /\ e = Errorf "Unsupported panel type: %q" [t]).

(* ================================================================= *)
(** ** Vocabulary for further properties of start-up *)

(** How a colour option [s] turns the colour [c0] into [c]: left alone when
    [s] is not six bytes long, and otherwise scanned into three values that
    replace R, G and B. *)
Definition colourTaken (Sscanf : string -> list Z * bool) (s : string)
    (c0 c : Color) : Prop :=
  (String.length s <> 6%nat /\ c = c0)
  \/ (String.length s = 6%nat
      /\ exists r g b, Sscanf s = ([r; g; b], false)
           /\ c = mkColor r g b (cA c0)).


(* ================================================================= *)
(** ** Vocabulary for further properties of the render loop *)

(** The render loop [for range time.Tick(pingInterval)]: one [tick] per
    element of [recvs], which gives for each tick what the channels hold. *)
Fixpoint ticks (indefinite : float -> Z) (g : Globals)
    (ps : list (option panel)) (recvs : list (nat -> option Sample))
    (rd : Renderer) : option (list (option panel) * Renderer) :=
  match recvs with
  | [] => Some (ps, rd)
  | recv :: rest =>
      match tick indefinite g ps recv rd with
      | Some (ps', rd') => ticks indefinite g ps' rest rd'
      | None => None
      end
  end.

(** What a tick leaves alone in a panel: its type, its target and the
    capacity of its ring ([None] for a nil panel pointer). *)
Definition shape (op : option panel) : option (string * string * nat) :=
  option_map (fun p => (typ p, target p, ringLen (ring p))) op.

(** Panel pointers that are not nil, with rings that are not nil. *)
Definition usable (ps : list (option panel)) : Prop :=
  Forall (fun op => exists p : panel, op = Some p /\ ring p <> []) ps.

(** [rd] with the primitives [l] drawn before its own. *)
Definition prepend (l : list Prim) (rd : Renderer) : Renderer :=
  {| drawColor := drawColor rd; frame := l ++ frame rd |}.

(** What [plotRing] draws for a ring, on a renderer that holds nothing
    yet. *)
Definition plotted (indefinite : float -> Z) (g : Globals) (r : Ring)
    (host : string) (tgtnum : Z) (color : Color) : list Prim :=
  match plotRing indefinite g r host tgtnum
          {| drawColor := color; frame := [] |} color with
  | Some rd => frame rd
  | None => []
  end.





(** A primitive moved down by [d] rows, in [int32] arithmetic. *)
Definition shiftY (d : Z) (p : Prim) : Prim :=
  match p with
  | Cleared c => Cleared c
  | Rect c x y w h => Rect c x (int32 (y + d)) w h
  | Line c x1 y1 x2 y2 => Line c x1 (int32 (y1 + d)) x2 (int32 (y2 + d))
  | Text c x y t => Text c x (int32 (y + d)) t
  end.

(** A renderer with everything it holds moved down by [d] rows. *)
Definition shiftR (d : Z) (rd : Renderer) : Renderer :=
  {| drawColor := drawColor rd; frame := map (shiftY d) (frame rd) |}.

(* ================================================================= *)
(** * Properties *)

(** ** The history ring *)

Lemma ringNew_length (n : Z) : ringLen (ringNew n) = Z.to_nat n.
Proof. unfold ringLen, ringNew. apply length_replicate. Qed.

Lemma collect_received (g : Globals) (p : panel) (v : Sample) x xs :
  ring p = x :: xs ->
  collect g p (Some v) =
    Some ({| typ := typ p; target := target p; ring := xs ++ [Some v] |}, fg g).
Proof. intros E. unfold collect. rewrite E. reflexivity. Qed.

Lemma collect_length (g : Globals) (p p' : panel) rv c :
  collect g p rv = Some (p', c) -> ringLen (ring p') = ringLen (ring p).
Proof.
  destruct rv as [v|]; simpl.
  - destruct (ring p) as [|x xs] eqn:E; simpl; [discriminate|].
    intros [= <- _]. simpl. unfold ringLen.
    rewrite length_app. simpl. lia.
  - intros [= <- _]. reflexivity.
Qed.

(** The invariant of a run: the ring is the old contents followed by the
    received samples, with as many of the oldest entries dropped. *)
Lemma collectAll_ring (g : Globals) (recvs : list (option Sample)) :
  forall p : panel, ring p <> [] ->
  exists p', collectAll g p recvs = Some p'
    /\ typ p' = typ p /\ target p' = target p
    /\ ring p' = drop (length (received recvs))
                   (ring p ++ map Some (received recvs)).
Proof.
  induction recvs as [|rv rest IH]; intros p Hne.
  - exists p. simpl. rewrite app_nil_r. auto.
  - destruct rv as [v|].
    + destruct (ring p) as [|x xs] eqn:E; [congruence|].
      cbn [collectAll]. rewrite (collect_received g p v x xs E).
      destruct (IH {| typ := typ p; target := target p;
                      ring := xs ++ [Some v] |}) as (p' & H1 & H2 & H3 & H4).
      { simpl. destruct xs; discriminate. }
      exists p'. simpl in *. repeat split; try assumption.
      rewrite H4. unfold received. simpl. rewrite <- app_assoc. reflexivity.
    + cbn [collectAll collect]. unfold received. simpl. apply IH, Hne.
Qed.

(** C2. A ring of capacity [N] that has received at least [N] samples holds
    the [N] most recent ones, oldest first, in the order they were written
    (the older ones were overwritten); ticks without a sample do not count. *)
Theorem ring_holds_last_samples (g : Globals) (N : nat) (p : panel)
    (recvs : list (option Sample)) :
  (0 < N)%nat ->
  ring p = ringNew (Z.of_nat N) ->
  (N <= length (received recvs))%nat ->
  exists p', collectAll g p recvs = Some p'
    /\ ring p' = map Some (drop (length (received recvs) - N) (received recvs)).
Proof.
  intros HN Hr Hlen.
  destruct (collectAll_ring g recvs p) as (p' & H1 & _ & _ & H4).
  { rewrite Hr. unfold ringNew. rewrite Nat2Z.id.
    destruct N; [lia | discriminate]. }
  exists p'. split; [exact H1|].
  rewrite H4, Hr. unfold ringNew. rewrite Nat2Z.id.
  rewrite drop_app_ge by (rewrite length_replicate; exact Hlen).
  rewrite length_replicate. apply skipn_map.
Qed.

(** Scenario A: after 12 writes a ring of capacity 10 holds samples 3..12. *)
Lemma ring_scenario_A :
  exists p', collectAll initGlobals panelA ticksA = Some p'
    /\ ring p' = map Some (drop (length (received ticksA) - 10) (received ticksA)).
Proof.
  apply (ring_holds_last_samples initGlobals 10 panelA ticksA).
  - lia.
  - reflexivity.
  - vm_compute. lia.
Defined.

Example scenario_A_contents :
  option_map ring (collectAll initGlobals panelA ticksA)
  = Some (map (fun k => Some [float64_of_int k]) [3; 4; 5; 6; 7; 8; 9; 10; 11; 12]).
Proof. vm_compute. reflexivity. Qed.

(** Before the ring is full the unwritten slots come first, still nil. *)
Lemma ring_partly_filled (g : Globals) (N : nat) (p : panel)
    (recvs : list (option Sample)) :
  ring p = ringNew (Z.of_nat N) ->
  (length (received recvs) < N)%nat ->
  exists p', collectAll g p recvs = Some p'
    /\ ring p' = replicate (N - length (received recvs)) None
                 ++ map Some (received recvs).
Proof.
  intros Hr Hlen.
  destruct (collectAll_ring g recvs p) as (p' & H1 & _ & _ & H4).
  { rewrite Hr. unfold ringNew. rewrite Nat2Z.id.
    destruct N; [lia | discriminate]. }
  exists p'. split; [exact H1|].
  rewrite H4, Hr. unfold ringNew. rewrite Nat2Z.id.
  rewrite drop_app_le by (rewrite length_replicate; lia).
  rewrite drop_replicate. reflexivity.
Qed.

(** ** Machine arithmetic *)

Lemma int32_idem_add (a b : Z) : int32 (int32 a + b) = int32 (a + b).
Proof.
  unfold int32.
  replace ((a + 2 ^ 31) mod 2 ^ 32 - 2 ^ 31 + b + 2 ^ 31)
    with ((a + 2 ^ 31) mod 2 ^ 32 + b) by lia.
  rewrite Z.add_mod_idemp_l by lia.
  replace (a + 2 ^ 31 + b) with (a + b + 2 ^ 31) by lia. reflexivity.
Qed.

Lemma int32_small (z : Z) : - 2 ^ 31 <= z < 2 ^ 31 -> int32 z = z.
Proof.
  intros H. unfold int32. rewrite Z.mod_small by lia. lia.
Qed.

Lemma int32_range (z : Z) : - 2 ^ 31 <= int32 z < 2 ^ 31.
Proof.
  unfold int32. pose proof (Z.mod_pos_bound (z + 2 ^ 31) (2 ^ 32)). lia.
Qed.

(** ** The drawing pass never panics and only adds line segments *)

Section PlotFacts.

Variable indefinite : float -> Z.

Lemma drawValue_total mx vs i prev j v rd :
  exists c y1 y2,
    drawValue indefinite mx vs i prev j v rd
    = Some {| drawColor := c;
              frame := frame rd ++ [Line c (add32 windowMargin i) y1
                                           (add32 windowMargin i) y2] |}.
Proof.
  unfold drawValue.
  assert (Hc : exists h rd1, chooseColumn indefinite mx j v rd = Some (h, rd1)
                             /\ frame rd1 = frame rd).
  { unfold chooseColumn.
    destruct (IsNaN v); [eauto|].
    destruct (PrimFloat.ltb 0 v); [|eauto].
    destruct (j <? length plotColors)%nat eqn:Hj; [|eauto].
    apply Nat.ltb_lt in Hj.
    destruct (lookup_lt_is_Some_2 plotColors j Hj) as [c ->]. eauto. }
  destruct Hc as (h & rd1 & -> & Hf).
  destruct ((0 <? j)%nat && (j <? length prev)%nat) eqn:Hj.
  - apply andb_true_iff in Hj as [_ Hj]. apply Nat.ltb_lt in Hj.
    destruct (lookup_lt_is_Some_2 prev j Hj) as [q ->].
    unfold DrawLine. rewrite Hf. eauto.
  - unfold DrawLine. rewrite Hf. eauto.
Qed.

Lemma drawSeries_total mx vs i prev d : forall j rd,
  exists rd' ls,
    drawSeries indefinite mx vs i prev j d rd = Some rd'
    /\ frame rd' = frame rd ++ ls
    /\ forallb isLine ls = true
    /\ length ls = length d.
Proof.
  induction d as [|v d IH]; intros j rd.
  - exists rd, []. simpl. rewrite app_nil_r. auto.
  - cbn [drawSeries].
    destruct (drawValue_total mx vs i prev j v rd) as (c & y1 & y2 & ->).
    destruct (IH (S j) {| drawColor := c;
        frame := frame rd ++ [Line c (add32 windowMargin i) y1
                                     (add32 windowMargin i) y2] |})
      as (rd' & ls & -> & Hf & Hl & Hn).
    exists rd', (Line c (add32 windowMargin i) y1 (add32 windowMargin i) y2 :: ls).
    split; [reflexivity|]. split; [|split].
    + rewrite Hf. simpl. rewrite <- app_assoc. reflexivity.
    + simpl. exact Hl.
    + simpl. rewrite Hn. reflexivity.
Qed.

Lemma lastSample_cons (x : Value) (r : Ring) (d0 : Sample) :
  lastSample (x :: r) d0 = lastSample r (assertSample x).
Proof.
  unfold lastSample. destruct r as [|y r]; [reflexivity|].
  rewrite last_cons_cons.
  destruct (last (y :: r)) eqn:E; [reflexivity|].
  apply last_None in E. discriminate.
Qed.

Lemma drawPass_total mx vs (r : Ring) : forall st,
  - 2 ^ 31 <= d_i st < 2 ^ 31 ->
  exists st' ls,
    drawPass indefinite mx vs r st = Some st'
    /\ d_i st' = int32 (d_i st + Z.of_nat (length r))
    /\ d_data st' = lastSample r (d_data st)
    /\ frame (d_rd st') = frame (d_rd st) ++ ls
    /\ forallb isLine ls = true
    /\ length ls = length (List.concat (map assertSample r)).
Proof.
  induction r as [|x r IH]; intros st Hi.
  - exists st, []. simpl. rewrite app_nil_r, Z.add_0_r.
    rewrite int32_small by exact Hi. repeat split; reflexivity.
  - unfold drawPass. cbn [ringDoM]. unfold drawVisit.
    destruct (drawSeries_total mx vs (d_i st) (d_data st) (assertSample x)
                0%nat (d_rd st)) as (rd' & ls1 & -> & Hf1 & Hl1 & Hn1).
    destruct (IH {| d_data := assertSample x; d_i := add32 (d_i st) 1;
                    d_rd := rd' |})
      as (st' & ls2 & H1 & H2 & H3 & H4 & H5 & H6).
    { apply int32_range. }
    exists st', (ls1 ++ ls2). split; [exact H1|].
    cbn [d_i d_data d_rd] in *. repeat split.
    + rewrite H2. unfold add32. rewrite int32_idem_add. f_equal.
      rewrite length_cons. lia.
    + rewrite H3, lastSample_cons. reflexivity.
    + rewrite H4, Hf1, <- app_assoc. reflexivity.
    + rewrite forallb_app, Hl1, H5. reflexivity.
    + cbn [map List.concat]. rewrite !length_app, Hn1, H6. reflexivity.
Qed.

(** [plotRing] returns for every ring, and draws the border and the host
    label, then line segments only, then the statistics label. *)
Lemma plotRing_total (g : Globals) (r : Ring) host tgtnum rd color :
  exists rd' ls,
    plotRing indefinite g r host tgtnum rd color = Some rd'
    /\ frame rd' = frame rd ++ borderOf g tgtnum host color ++ ls
                    ++ [statLabelOf tgtnum color (statsPass r)]
    /\ forallb isLine ls = true.
Proof.
  unfold plotRing.
  destruct (drawPass_total (maxv (statsPass r))
              (add32 (mul32 tgtnum targetSize) 1) r
              {| d_data := data (statsPass r); d_i := 0;
                 d_rd := drawText color windowMargin
                   (sub32 (add32 (add32 (mul32 tgtnum targetSize) 1)
                             windowMargin) 3) (HostLabel host)
                   (DrawRect windowMargin
                      (add32 (add32 (add32 (mul32 tgtnum targetSize) 1)
                                windowMargin) 15)
                      (sub32 (windowWidth g) (mul32 windowMargin 2))
                      panelHeight (SetDrawColor color rd)) |})
    as (st' & ls & -> & _ & _ & Hf & Hl & _).
  { simpl. lia. }
  exists (drawText color windowMargin
            (add32 (add32 (add32 (add32 (mul32 tgtnum targetSize) 1)
                             windowMargin) panelHeight) 15)
            (StatLabel (lst (statsPass r)) (maxv (statsPass r))
               (average (statsPass r))) (d_rd st')), ls.
  split; [reflexivity|]. split; [|exact Hl].
  cbn [drawText frame]. rewrite Hf. cbn [d_rd drawText DrawRect SetDrawColor frame drawColor].
  unfold borderOf, statLabelOf.
  rewrite <- ?app_assoc. reflexivity.
Qed.

End PlotFacts.

(** ** The collector *)

Lemma collectAll_length (g : Globals) (recvs : list (option Sample)) :
  forall p p', collectAll g p recvs = Some p' ->
  ringLen (ring p') = ringLen (ring p).
Proof.
  induction recvs as [|rv rest IH]; intros p p'; cbn [collectAll].
  - intros [= <-]. reflexivity.
  - destruct (collect g p rv) as [[q c]|] eqn:E; [|discriminate].
    intros H. rewrite (IH _ _ H). exact (collect_length g p q rv c E).
Qed.

Lemma tickPanels_stale (indefinite : float -> Z) (g : Globals)
    (recv : nat -> option Sample) (ps : list (option panel)) :
  forall i rd ps' rd' k (p : panel),
  tickPanels indefinite g i ps recv rd = Some (ps', rd') ->
  ps !! k = Some (Some p) -> recv (i + k)%nat = None ->
  ps' !! k = Some (Some p).
Proof.
  induction ps as [|op ps IH]; intros i rd ps' rd' k p H Hk Hr.
  - rewrite lookup_nil in Hk. discriminate.
  - cbn [tickPanels] in H. destruct op as [p0|]; [|discriminate].
    destruct (tickPanel indefinite g i p0 (recv i) rd) as [[p1 rd1]|] eqn:E1;
      [|discriminate].
    destruct (tickPanels indefinite g (S i) ps recv rd1) as [[ps2 rd2]|] eqn:E2;
      [|discriminate].
    injection H as <- <-.
    destruct k as [|k].
    + simpl in Hk. injection Hk as ->. rewrite Nat.add_0_r in Hr.
      unfold tickPanel in E1. rewrite Hr in E1. cbn [collect] in E1.
      destruct (plotRing _ _ _ _ _ _ _); [|discriminate].
      injection E1 as <- _. reflexivity.
    + simpl in Hk |- *. apply (IH (S i) rd1 ps2 rd2 k p E2 Hk).
      rewrite <- Hr. f_equal. lia.
Qed.

(** C4. A tick at which the channel of a panel has no sample ready takes the
    [default] branch: the panel, hence every slot of its ring and the write
    position, is returned as it was, and the panel is plotted with its
    border and both labels in the error colour.  The colour is chosen anew
    at every tick: a tick that receives a sample uses the foreground
    colour.  In a tick over all the panels, each panel whose channel is
    empty comes out as it went in. *)
Theorem stale_tick_keeps_ring (indefinite : float -> Z) (g : Globals)
    (i : nat) (p : panel) (rd : Renderer) :
  collect g p None = Some (p, errColor)
  /\ (exists rd' ls,
        tickPanel indefinite g i p None rd = Some (p, rd')
        /\ frame rd' = frame rd
             ++ borderOf g (int32 (Z.of_nat i)) (target p) errColor
             ++ ls
             ++ [statLabelOf (int32 (Z.of_nat i)) errColor (statsPass (ring p))]
        /\ forallb isLine ls = true)
  /\ (forall v, match collect g p (Some v) with
                | Some (_, c) => c = fg g
                | None => ring p = []
                end)
  /\ (forall ps recv rd0 ps' rd' k,
        tick indefinite g ps recv rd0 = Some (ps', rd') ->
        ps !! k = Some (Some p) -> recv k = None ->
        ps' !! k = Some (Some p)).
Proof.
  split; [reflexivity|]. split; [|split].
  - unfold tickPanel. cbn [collect].
    destruct (plotRing_total indefinite g (ring p) (target p)
                (int32 (Z.of_nat i)) rd errColor) as (rd' & ls & -> & Hf & Hl).
    exists rd', ls. auto.
  - intros v. unfold collect.
    destruct (ring p) as [|x xs]; reflexivity.
  - intros ps recv rd0 ps' rd' k H Hk Hr. unfold tick in H.
    exact (tickPanels_stale indefinite g recv ps 0 _ ps' rd' k p H Hk Hr).
Qed.

(** ** Panel parsing *)

Lemma probes_never_fail (t : string) (p : probe) (tgt : string) :
  probes !! t = Some p -> p tgt = None.
Proof.
  unfold probes. intros H.
  apply lookup_insert_Some in H as [[_ <-]|[_ H]]; [reflexivity|].
  apply lookup_insert_Some in H as [[_ <-]|[_ H]]; [reflexivity|].
  apply lookup_singleton_Some in H as [_ <-]. reflexivity.
Qed.

Lemma firstError_cons (arg : string) (rest : list string) :
  firstError (arg :: rest)
  = match checkArg arg with
    | Some e => Some e
    | None => firstError rest
    end.
Proof.
  unfold firstError. simpl. destruct (checkArg arg); reflexivity.
Qed.

(** The loop returns the first error among its tokens, and otherwise the
    slice with one panel stored for each token. *)
Lemma parseLoop_spec (g : Globals) (args : list string) :
  forall (i : nat) (a : list (option panel)),
  length a = (i + length args)%nat ->
  parseLoop g i args a
  = match firstError args with
    | Some e => Err e
    | None => Ok (take i a ++ map (fun arg => Some (panelOf g arg)) args)
    end.
Proof.
  induction args as [|arg rest IH]; intros i a Hlen.
  - simpl in *. rewrite app_nil_r, take_ge by lia. reflexivity.
  - rewrite firstError_cons. cbn [parseLoop]. unfold checkArg.
    fold (malformed arg).
    destruct (malformed arg); [reflexivity|]. cbn [negb].
    destruct (probes !! nth 0 (Split arg ":") EmptyString) as [pr|]; [|reflexivity].
    destruct (pr (nth 1 (Split arg ":") EmptyString)); [reflexivity|].
    rewrite IH by (rewrite length_insert; simpl in Hlen; lia).
    destruct (firstError rest); [reflexivity|].
    f_equal. fold (panelOf g arg).
    simpl in Hlen.
    rewrite (take_S_r _ i (Some (panelOf g arg)))
      by (apply list_lookup_insert_eq; lia).
    rewrite take_insert_ge by lia.
    rewrite <- app_assoc. reflexivity.
Qed.

Lemma parsePanels_spec (g : Globals) (args : list string) :
  parsePanels g args
  = if (length args =? 0)%nat then Err (Errorf "No args specified" [])
    else if (255 <? length args)%nat then
      Err (Errorf "Too many targets specified" [])
    else match firstError args with
         | Some e => Err e
         | None => Ok (map (fun arg => Some (panelOf g arg)) args)
         end.
Proof.
  unfold parsePanels.
  destruct (length args =? 0)%nat eqn:E0.
  - apply Nat.eqb_eq in E0. rewrite E0. reflexivity.
  - apply Nat.eqb_neq in E0.
    destruct (Z.ltb_spec (Z.of_nat (length args)) 1); [lia|].
    change maxTargets with 255.
    destruct (255 <? length args)%nat eqn:E1.
    + apply Nat.ltb_lt in E1.
      destruct (Z.gtb_spec (Z.of_nat (length args)) 255); [reflexivity | lia].
    + apply Nat.ltb_ge in E1.
      destruct (Z.gtb_spec (Z.of_nat (length args)) 255); [lia|].
      rewrite parseLoop_spec by (rewrite length_replicate; lia).
      reflexivity.
Qed.

Lemma Split_length (sep : ascii) (s : string) :
  length (Split s sep) = S (countByte sep s).
Proof.
  induction s as [|c s IH]; [reflexivity|].
  simpl. destruct (Ascii.eqb c sep).
  - simpl. rewrite IH. reflexivity.
  - destruct (Split s sep) as [|t ts]; [discriminate|]. exact IH.
Qed.

Lemma malformed_colons (arg : string) :
  malformed arg = true <-> countByte ":"%char arg <> 1%nat.
Proof.
  unfold malformed. rewrite Split_length, negb_true_iff, Nat.eqb_neq. lia.
Qed.

Lemma checkArg_malformed (arg : string) :
  malformed arg = true ->
  checkArg arg = Some (Errorf "Could not parse panel: %q" [arg]).
Proof. unfold checkArg. intros ->. reflexivity. Qed.


(** C10. Panel parsing takes between 1 and 255 targets: the empty list is
    refused with "No args specified", a list of more than 255 with "Too many
    targets specified" (no token is looked at, no panel built), and a list
    of 1 to 255 tokens that are all accepted yields one panel per token. *)
Theorem parsePanels_target_count (g : Globals) (args : list string) :
  (length args = 0%nat ->
     parsePanels g args = Err (Errorf "No args specified" []))
  /\ ((255 < length args)%nat ->
     parsePanels g args = Err (Errorf "Too many targets specified" []))
  /\ ((1 <= length args <= 255)%nat -> firstError args = None ->
     parsePanels g args = Ok (map (fun arg => Some (panelOf g arg)) args)).
Proof.
  rewrite parsePanels_spec. repeat split.
  - intros ->. reflexivity.
  - intros H.
    destruct (Nat.eqb_spec (length args) 0); [lia|].
    destruct (Nat.ltb_spec 255 (length args)); [reflexivity | lia].
  - intros H ->.
    destruct (Nat.eqb_spec (length args) 0); [lia|].
    destruct (Nat.ltb_spec 255 (length args)); [lia | reflexivity].
Qed.

(** 256 targets are refused; 255 are taken. *)
Lemma parsePanels_target_count_witness :
  parsePanels initGlobals (replicate 256 "sine:a"%string)
    = Err (Errorf "Too many targets specified" [])
  /\ parsePanels initGlobals (replicate 255 "sine:a"%string)
    = Ok (map (fun arg => Some (panelOf initGlobals arg))
            (replicate 255 "sine:a"%string)).
Proof.
  split.
  - apply (parsePanels_target_count initGlobals (replicate 256 "sine:a"%string)).
    vm_compute. lia.
  - apply (parsePanels_target_count initGlobals (replicate 255 "sine:a"%string)).
    + vm_compute. lia.
    + vm_compute. reflexivity.
Defined.




(** C6, as the code has it.  Every panel that [parsePanels] returns at
    start-up has a ring of [panelWidth - 2] slots, which is
    [windowWidth - 2 * windowMargin - 2 = 168]: the width inside the border
    rectangle of the initial window.  The capacity is fixed: no run of the
    collector changes it. *)
Theorem ring_capacity (args : list string) (panels : list (option panel)) :
  parsePanels initGlobals args = Ok panels ->
  length panels = length args
  /\ Forall (fun op => exists p : panel, op = Some p
        /\ Z.of_nat (ringLen (ring p))
           = windowWidth initGlobals - 2 * windowMargin - 2
        /\ ringLen (ring p) = 168%nat
        /\ forall g recvs p', collectAll g p recvs = Some p' ->
             ringLen (ring p') = 168%nat) panels.
Proof.
  rewrite parsePanels_spec.
  destruct (length args =? 0)%nat; [discriminate|].
  destruct (255 <? length args)%nat; [discriminate|].
  destruct (firstError args); [discriminate|].
  intros [= <-]. split; [apply length_map|].
  apply Forall_forall. intros op Hin.
  apply list_elem_of_In, in_map_iff in Hin as (arg & <- & _).
  exists (panelOf initGlobals arg). split; [reflexivity|].
  assert (E : ringLen (ring (panelOf initGlobals arg)) = 168%nat)
    by reflexivity.
  split; [rewrite E; reflexivity|]. split; [exact E|].
  intros g recvs p' H. rewrite (collectAll_length g recvs _ _ H). exact E.
Qed.

Lemma ring_capacity_witness :
  length [Some (panelOf initGlobals "sine:localhost")] = length ["sine:localhost"%string]
  /\ Forall (fun op => exists p : panel, op = Some p
        /\ Z.of_nat (ringLen (ring p))
           = windowWidth initGlobals - 2 * windowMargin - 2
        /\ ringLen (ring p) = 168%nat
        /\ forall g recvs p', collectAll g p recvs = Some p' ->
             ringLen (ring p') = 168%nat)
       [Some (panelOf initGlobals "sine:localhost")].
Proof.
  apply (ring_capacity ["sine:localhost"%string]).
  vm_compute. reflexivity.
Defined.

(** C6 as stated fails: the capacity is 168, and [windowWidth - 2] is 178. *)
Lemma ring_capacity_not_window_width :
  match parsePanels initGlobals ["sine:localhost"%string] with
  | Ok [Some p] => Z.of_nat (ringLen (ring p))
  | _ => -1
  end = 168
  /\ windowWidth initGlobals - 2 = 178.
Proof. vm_compute. auto. Qed.

(** ** Colour options *)

Lemma colorOption_fails (Sscanf : string -> list Z * bool)
    (s failure : string) (c : Color) :
  String.length s = 6%nat -> scanFails Sscanf s = true ->
  colorOption Sscanf s failure c = Err (Errorf failure []).
Proof.
  unfold colorOption, scanFails. intros -> H. cbn [Nat.eqb].
  destruct (Sscanf s) as [vals err]. rewrite H. reflexivity.
Qed.

Lemma colorOption_skipped (Sscanf : string -> list Z * bool)
    (s failure : string) (c : Color) :
  String.length s <> 6%nat -> colorOption Sscanf s failure c = Ok c.
Proof.
  unfold colorOption. intros H.
  destruct (Nat.eqb_spec (String.length s) 6); [contradiction | reflexivity].
Qed.

(** C9, as the code has it.  In the instance that runs in the foreground, a
    background or foreground colour of exactly six bytes that the scan
    rejects ends start-up in [errbox] with exit status 1, before SDL is
    initialised; the message is the colour's when the panels parse (the
    panel error comes first otherwise).  A colour string of any other
    length is not scanned: start-up goes on with the default colour. *)
Theorem bad_color_refused (Sscanf : string -> list Z * bool)
    (args : list string) (bgColor fgColor : string) :
  (String.length bgColor = 6%nat /\ scanFails Sscanf bgColor = true
   \/ String.length fgColor = 6%nat /\ scanFails Sscanf fgColor = true ->
   exists e,
     startup Sscanf true args bgColor fgColor = ErrBox e
     /\ exitCode (ErrBox e) = Some 1
     /\ (forall panels, parsePanels initGlobals args = Ok panels ->
          e = Errorf "Unable to parse bg background color" []
          \/ e = Errorf "Unable to parse fg foreground color" []))
  /\ (String.length bgColor <> 6%nat -> String.length fgColor <> 6%nat ->
      startup Sscanf true args bgColor fgColor
      = match parsePanels initGlobals args with
        | Ok panels => Running initGlobals panels
        | Err e => ErrBox e
        end).
Proof.
  split.
  - intros H. unfold startup. cbn [negb].
    destruct (parsePanels initGlobals args) as [panels|e0].
    2:{ exists e0. repeat split. intros ? [=]. }
    destruct H as [[Hl Hs]|[Hl Hs]].
    + rewrite (colorOption_fails Sscanf bgColor _ _ Hl Hs).
      eexists. repeat split. intros _ _. left. reflexivity.
    + destruct (colorOption Sscanf bgColor _ (bg initGlobals)) as [c|e1] eqn:E.
      * rewrite (colorOption_fails Sscanf fgColor _ _ Hl Hs).
        eexists. repeat split. intros _ _. right. reflexivity.
      * exists e1. repeat split. intros _ _. left.
        unfold colorOption in E.
        destruct (String.length bgColor =? 6)%nat; [|discriminate].
        destruct (Sscanf bgColor) as [vals err].
        destruct (err || negb (length vals =? 3)%nat); congruence.
  - intros Hb Hf. unfold startup. cbn [negb].
    destruct (parsePanels initGlobals args) as [panels|e0]; [|reflexivity].
    rewrite (colorOption_skipped Sscanf bgColor _ _ Hb).
    rewrite (colorOption_skipped Sscanf fgColor _ _ Hf).
    reflexivity.
Qed.

(** The six bytes "zzzzzz" given as background colour. *)
Lemma bad_color_refused_witness :
  exists e,
    startup scanHex true ["sine:localhost"%string] "zzzzzz" "" = ErrBox e
    /\ exitCode (ErrBox e) = Some 1
    /\ (forall panels,
          parsePanels initGlobals ["sine:localhost"%string] = Ok panels ->
          e = Errorf "Unable to parse bg background color" []
          \/ e = Errorf "Unable to parse fg foreground color" []).
Proof.
  apply (bad_color_refused scanHex ["sine:localhost"%string] "zzzzzz" "").
  left. split; reflexivity.
Defined.

(** C9 as stated fails: the colours "red" and "#ff0000" are not colours in
    RRGGBB form, and start-up neither reports them nor exits; it goes on to
    render with the default colours. *)
Lemma bad_color_not_reported :
  startup scanHex true ["sine:localhost"%string] "red" "#ff0000"
  = Running initGlobals [Some (panelOf initGlobals "sine:localhost")]
  /\ exitCode (startup scanHex true ["sine:localhost"%string] "red" "#ff0000")
    = None.
Proof. vm_compute. auto. Qed.

(** ** The order of float64 *)

Ltac cmp_cases :=
  repeat match goal with
  | |- context [Z.compare ?a ?b] => destruct (Z.compare_spec a b)
  | H : context [Z.compare ?a ?b] |- _ => destruct (Z.compare_spec a b)
  | |- context [PosDef.Pos.compare_cont Eq ?a ?b] =>
      change (PosDef.Pos.compare_cont Eq a b) with (Pos.compare a b);
      destruct (Pos.compare_spec a b)
  | H : context [PosDef.Pos.compare_cont Eq ?a ?b] |- _ =>
      change (PosDef.Pos.compare_cont Eq a b) with (Pos.compare a b) in H;
      destruct (Pos.compare_spec a b)
  end.

Ltac sf_order :=
  unfold SFleb, SFltb, SFeqb in *;
  repeat match goal with x : spec_float |- _ => destruct x end;
  simpl in *; try congruence;
  repeat match goal with b : bool |- _ => destruct b end;
  simpl in *; try congruence;
  cmp_cases; simpl in *; try congruence; try lia.

Lemma SFle_lt_trans a b c :
  SFleb a b = true -> SFltb b c = true -> SFltb a c = true.
Proof. intros H1 H2. sf_order. Qed.

Lemma SFlt_le_trans a b c :
  SFltb a b = true -> SFleb b c = true -> SFltb a c = true.
Proof. intros H1 H2. sf_order. Qed.

Lemma SFle_trans a b c :
  SFleb a b = true -> SFleb b c = true -> SFleb a c = true.
Proof. intros H1 H2. sf_order. Qed.

Lemma SFnlt_le a b :
  SFltb a b = false -> a <> S754_nan -> b <> S754_nan -> SFleb b a = true.
Proof. intros H1 Ha Hb. sf_order. Qed.

Lemma SFlt_irrefl a : SFltb a a = false.
Proof. sf_order. Qed.

Lemma SFeqb_refl_nan a : SFeqb a a = true <-> a <> S754_nan.
Proof. split; intros H; sf_order. Qed.

Lemma SFltb_not_nan a b :
  SFltb a b = true -> a <> S754_nan /\ b <> S754_nan.
Proof. intros H; split; intros ?; subst; sf_order. Qed.

Lemma SFleb_not_nan a b :
  SFleb a b = true -> a <> S754_nan /\ b <> S754_nan.
Proof. intros H; split; intros ?; subst; sf_order. Qed.

Lemma is_nan_SF (f : float) :
  PrimFloat.is_nan f = false <-> Prim2SF f <> S754_nan.
Proof.
  unfold PrimFloat.is_nan. rewrite FloatAxioms.eqb_spec, negb_false_iff.
  apply SFeqb_refl_nan.
Qed.

Lemma f_le_lt_trans (a b c : float) :
  PrimFloat.leb a b = true -> PrimFloat.ltb b c = true ->
  PrimFloat.ltb a c = true.
Proof. rewrite leb_spec, !ltb_spec. apply SFle_lt_trans. Qed.

Lemma f_lt_le_trans (a b c : float) :
  PrimFloat.ltb a b = true -> PrimFloat.leb b c = true ->
  PrimFloat.ltb a c = true.
Proof. rewrite leb_spec, !ltb_spec. apply SFlt_le_trans. Qed.

Lemma f_le_trans (a b c : float) :
  PrimFloat.leb a b = true -> PrimFloat.leb b c = true ->
  PrimFloat.leb a c = true.
Proof. rewrite !leb_spec. apply SFle_trans. Qed.

Lemma f_lt_le (a b : float) :
  PrimFloat.ltb a b = true -> PrimFloat.leb a b = true.
Proof.
  rewrite leb_spec, ltb_spec. unfold SFleb, SFltb.
  destruct (SFcompare _ _) as [[]|]; congruence.
Qed.

Lemma f_nlt_le (a b : float) :
  PrimFloat.ltb a b = false ->
  PrimFloat.is_nan a = false -> PrimFloat.is_nan b = false ->
  PrimFloat.leb b a = true.
Proof. rewrite leb_spec, ltb_spec, !is_nan_SF. apply SFnlt_le. Qed.

Lemma f_lt_irrefl (a : float) : PrimFloat.ltb a a = false.
Proof. rewrite ltb_spec. apply SFlt_irrefl. Qed.

Lemma f_lt_not_nan (a b : float) :
  PrimFloat.ltb a b = true ->
  PrimFloat.is_nan a = false /\ PrimFloat.is_nan b = false.
Proof. rewrite ltb_spec, !is_nan_SF. apply SFltb_not_nan. Qed.

Lemma f_le_not_nan (a b : float) :
  PrimFloat.leb a b = true ->
  PrimFloat.is_nan a = false /\ PrimFloat.is_nan b = false.
Proof. rewrite leb_spec, !is_nan_SF. apply SFleb_not_nan. Qed.

(** A NaN compares false with everything. *)
Lemma f_nan_lt (a b : float) :
  PrimFloat.is_nan a = true \/ PrimFloat.is_nan b = true ->
  PrimFloat.ltb a b = false.
Proof.
  intros H. destruct (PrimFloat.ltb a b) eqn:E; [|reflexivity].
  apply f_lt_not_nan in E as [Ha Hb]. destruct H; congruence.
Qed.

(** ** The statistics pass *)

Lemma accumulate_withData (d : Sample) (s : Stats) (v : float) :
  accumulate (withData d s) v = withData d (accumulate s v).
Proof. reflexivity. Qed.

Lemma scan_withData (d : Sample) (vals : list float) : forall s,
  fold_left accumulate vals (withData d s)
  = withData d (fold_left accumulate vals s).
Proof.
  induction vals as [|v vals IH]; intros s; [reflexivity|].
  simpl. rewrite accumulate_withData. apply IH.
Qed.

Lemma withData_withData (d d' : Sample) (s : Stats) :
  withData d (withData d' s) = withData d s.
Proof. reflexivity. Qed.

(** The pass over the ring is one scan over all its values; the captured
    [data] ends as the sample of the last slot. *)
Lemma statsPass_scan (r : Ring) : forall s,
  ringDo statsVisit r s
  = withData (lastSample r (data s))
      (fold_left accumulate (ringValues r) s).
Proof.
  unfold ringDo, ringValues.
  induction r as [|x r IH]; intros s.
  - destruct s. reflexivity.
  - cbn [fold_left map List.concat]. rewrite IH, lastSample_cons.
    unfold statsVisit at 2.
    change {| minv := minv s; maxv := maxv s; lst := lst s; tot := tot s;
              cnt := cnt s; data := assertSample x |}
      with (withData (assertSample x) s).
    rewrite fold_left_app, !scan_withData, withData_withData.
    f_equal. unfold statsVisit.
    change {| minv := minv s; maxv := maxv s; lst := lst s; tot := tot s;
              cnt := cnt s; data := assertSample x |}
      with (withData (assertSample x) s).
    rewrite scan_withData. reflexivity.
Qed.

Lemma last_shift (vals : list float) : forall v d,
  List.last (v :: vals) d = List.last vals v.
Proof.
  induction vals as [|w vals IH]; intros v d; [reflexivity|].
  change (List.last (v :: w :: vals) d) with (List.last (w :: vals) d).
  rewrite !IH. reflexivity.
Qed.

Lemma scan_lst (vals : list float) : forall s,
  lst (fold_left accumulate vals s) = List.last vals (lst s).
Proof.
  induction vals as [|v vals IH]; intros s; [reflexivity|].
  cbn [fold_left]. rewrite IH, last_shift. reflexivity.
Qed.

Lemma scan_tot (vals : list float) : forall s,
  tot (fold_left accumulate vals s)
  = fold_left PrimFloat.add (List.filter (PrimFloat.ltb 0%float) vals) (tot s).
Proof.
  induction vals as [|v vals IH]; intros s; [reflexivity|].
  cbn [fold_left List.filter]. rewrite IH. cbn [accumulate tot].
  destruct (PrimFloat.ltb 0 v); reflexivity.
Qed.

Lemma scan_cnt (vals : list float) : forall s,
  - 2 ^ 31 <= cnt s < 2 ^ 31 ->
  cnt (fold_left accumulate vals s)
  = int32 (cnt s
           + Z.of_nat (length (List.filter (PrimFloat.ltb 0%float) vals))).
Proof.
  induction vals as [|v vals IH]; intros s Hc.
  - simpl. rewrite Z.add_0_r, int32_small by exact Hc. reflexivity.
  - cbn [fold_left List.filter]. rewrite IH; cbn [accumulate cnt].
    + destruct (PrimFloat.ltb 0 v).
      * unfold add32. rewrite int32_idem_add. f_equal.
        rewrite length_cons. lia.
      * reflexivity.
    + destruct (PrimFloat.ltb 0 v); [apply int32_range | exact Hc].
Qed.

(** The running maximum: never below its start, and at the end an upper
    bound of the positive values that is its start or one of them. *)
Lemma scan_max (vals : list float) : forall s,
  PrimFloat.leb 0%float (maxv s) = true ->
  let m := maxv (fold_left accumulate vals s) in
  PrimFloat.leb (maxv s) m = true
  /\ (m = maxv s \/ In m (List.filter (PrimFloat.ltb 0%float) vals))
  /\ Forall (fun v => PrimFloat.leb v m = true)
       (List.filter (PrimFloat.ltb 0%float) vals).
Proof.
  induction vals as [|v vals IH]; intros s H0; cbn zeta.
  - simpl. split; [|split; [left; reflexivity | constructor]].
    apply f_nlt_le; [apply f_lt_irrefl | |]; apply (f_le_not_nan _ _ H0).
  - cbn [fold_left List.filter].
    destruct (PrimFloat.ltb (maxv s) v) eqn:Hgt.
    + assert (Hv : PrimFloat.ltb 0 v = true)
        by exact (f_le_lt_trans _ _ _ H0 Hgt).
      destruct (IH (accumulate s v)) as (I1 & I2 & I3);
        cbn [accumulate maxv] in *; rewrite Hgt in *.
      { apply f_lt_le, Hv. }
      rewrite Hv. split; [|split].
      * apply f_lt_le. exact (f_lt_le_trans _ _ _ Hgt I1).
      * right. destruct I2 as [-> | I2]; [left; reflexivity | right; exact I2].
      * constructor; assumption.
    + destruct (IH (accumulate s v)) as (I1 & I2 & I3);
        cbn [accumulate maxv] in *; rewrite Hgt in *; [exact H0|].
      split; [exact I1|].
      destruct (PrimFloat.ltb 0 v) eqn:Hv.
      * split.
        -- destruct I2 as [I2 | I2]; [left; exact I2 | right; right; exact I2].
        -- constructor; [|exact I3].
           apply (f_le_trans _ (maxv s)); [|exact I1].
           apply f_nlt_le; [exact Hgt | apply (f_le_not_nan _ _ H0)
                           | apply (f_lt_not_nan _ _ Hv)].
      * split; assumption.
Qed.

(** The running minimum: never above its start, and at the end a lower bound
    of every value that is not NaN, which is its start or one of the
    values. *)
Lemma scan_min (vals : list float) : forall s,
  PrimFloat.is_nan (minv s) = false ->
  let m := minv (fold_left accumulate vals s) in
  PrimFloat.leb m (minv s) = true
  /\ (m = minv s \/ In m vals)
  /\ Forall (fun v => PrimFloat.is_nan v = false -> PrimFloat.leb m v = true)
       vals.
Proof.
  induction vals as [|v vals IH]; intros s Hn; cbn zeta.
  - simpl. split; [|split; [left; reflexivity | constructor]].
    apply f_nlt_le; [apply f_lt_irrefl | |]; exact Hn.
  - cbn [fold_left].
    destruct (PrimFloat.ltb v (minv s)) eqn:Hlt.
    + destruct (IH (accumulate s v)) as (I1 & I2 & I3);
        cbn [accumulate minv] in *; rewrite Hlt in *.
      { apply (f_lt_not_nan _ _ Hlt). }
      split; [|split].
      * apply f_lt_le. exact (f_le_lt_trans _ _ _ I1 Hlt).
      * right. destruct I2 as [-> | I2]; [left; reflexivity | right; exact I2].
      * constructor; [intros _; exact I1 | exact I3].
    + destruct (IH (accumulate s v)) as (I1 & I2 & I3);
        cbn [accumulate minv] in *; rewrite Hlt in *; [exact Hn|].
      split; [exact I1|]. split.
      * destruct I2 as [I2 | I2]; [left; exact I2 | right; right; exact I2].
      * constructor; [|exact I3]. intros Hv.
        apply (f_le_trans _ (minv s)); [exact I1|].
        apply f_nlt_le; assumption.
Qed.

Lemma statsPass_fields (r : Ring) :
  maxv (statsPass r) = maxv (fold_left accumulate (ringValues r) initStats)
  /\ minv (statsPass r) = minv (fold_left accumulate (ringValues r) initStats)
  /\ lst (statsPass r) = lst (fold_left accumulate (ringValues r) initStats)
  /\ tot (statsPass r) = tot (fold_left accumulate (ringValues r) initStats)
  /\ cnt (statsPass r) = cnt (fold_left accumulate (ringValues r) initStats)
  /\ data (statsPass r) = lastSample r [].
Proof.
  unfold statsPass. rewrite statsPass_scan. repeat split.
Qed.

Lemma positives_positive (r : Ring) (v : float) :
  In v (positives r) -> PrimFloat.ltb 0%float v = true.
Proof. unfold positives. intros H. apply filter_In in H. apply H. Qed.

Lemma last_app_nonempty (l v : list float) (d : float) :
  v <> [] -> List.last (l ++ v) d = List.last v d.
Proof.
  intros Hv. induction l as [|a l IH]; [reflexivity|].
  simpl. destruct (l ++ v) eqn:E; [|exact IH].
  apply app_eq_nil in E as [_ E]. contradiction.
Qed.

Lemma ringValues_app (r1 r2 : Ring) :
  ringValues (r1 ++ r2) = ringValues r1 ++ ringValues r2.
Proof. unfold ringValues. rewrite map_app, concat_app. reflexivity. Qed.

(** What [lst] holds after a write: the last value of the sample written. *)
Lemma lst_after_write (g : Globals) (p p' : panel) (v : Sample) (c : Color) :
  collect g p (Some v) = Some (p', c) -> v <> [] ->
  lst (statsPass (ring p')) = List.last v 0%float.
Proof.
  intros H Hv. destruct (ring p) as [|x xs] eqn:E.
  - unfold collect in H. rewrite E in H. discriminate.
  - rewrite (collect_received g p v x xs E) in H. injection H as <- _.
    cbn [ring].
    destruct (statsPass_fields (xs ++ [Some v])) as (_ & _ & -> & _).
    rewrite scan_lst, ringValues_app.
    unfold ringValues at 2. simpl. rewrite app_nil_r.
    apply last_app_nonempty, Hv.
Qed.

(** With a positive value in the ring, [maxv] is the maximum of the
    positive values. *)
Lemma maxv_is_max (r : Ring) :
  positives r <> [] ->
  In (maxv (statsPass r)) (positives r)
  /\ Forall (fun v => PrimFloat.leb v (maxv (statsPass r)) = true)
       (positives r).
Proof.
  intros Hpos.
  destruct (statsPass_fields r) as (Emax & _).
  destruct (scan_max (ringValues r) initStats) as (M1 & M2 & M3);
    [reflexivity|]. cbn zeta in *. rewrite <- Emax in *.
  fold (positives r) in M2, M3.
  change (maxv initStats) with 0%float in *.
  split; [|exact M3].
  destruct M2 as [M2|M2]; [|exact M2]. exfalso.
  destruct (positives r) as [|v l] eqn:E; [congruence|].
  assert (Hv : PrimFloat.ltb 0 v = true)
    by (apply (positives_positive r); rewrite E; left; reflexivity).
  inversion M3 as [|? ? Hle _]; subst.
  rewrite M2 in Hle.
  pose proof (f_lt_le_trans _ _ _ Hv Hle) as Hc.
  rewrite f_lt_irrefl in Hc. discriminate.
Qed.

(** C1, as the code has it.  For a ring with at least one positive value
    (and fewer than 2^31 of them), after the statistics pass:
    - [maxv] is the maximum of the positive values [v1..vk];
    - [minv] is the least of 10000 and of every value that is not NaN, the
      non-positive ones included; it is the minimum of [v1..vk] when no
      value is zero or negative and some [vi] is below 10000;
    - [avg] is the sum of [v1..vk], added in ring order, divided by [k];
    - [lst] is the last value met by the traversal, which is the value of
      the last series of the sample written last (when it is not empty). *)
Theorem statistics_pass (r : Ring) :
  positives r <> [] ->
  Z.of_nat (length (positives r)) < 2 ^ 31 ->
  (In (maxv (statsPass r)) (positives r)
   /\ Forall (fun v => PrimFloat.leb v (maxv (statsPass r)) = true)
        (positives r))
  /\ (In (minv (statsPass r)) (10000%float :: ringValues r)
      /\ Forall (fun v => PrimFloat.is_nan v = false ->
                          PrimFloat.leb (minv (statsPass r)) v = true)
           (10000%float :: ringValues r))
  /\ (Forall (fun v => PrimFloat.is_nan v = false ->
                       PrimFloat.ltb 0%float v = true) (ringValues r) ->
      Exists (fun v => PrimFloat.ltb v 10000%float = true) (positives r) ->
      In (minv (statsPass r)) (positives r)
      /\ Forall (fun v => PrimFloat.leb (minv (statsPass r)) v = true)
           (positives r))
  /\ average (statsPass r)
     = PrimFloat.div (fsum (positives r))
         (float64_of_int (Z.of_nat (length (positives r))))
  /\ lst (statsPass r) = List.last (ringValues r) 0%float
  /\ (forall g p v p' c,
        collect g p (Some v) = Some (p', c) -> v <> [] ->
        lst (statsPass (ring p')) = List.last v 0%float).
Proof.
  intros Hpos Hk.
  destruct (statsPass_fields r) as (_ & Emin & Elst & Etot & Ecnt & _).
  destruct (scan_min (ringValues r) initStats) as (N1 & N2 & N3);
    [reflexivity|]. cbn zeta in *. rewrite <- Emin in *.
  change (minv initStats) with 10000%float in *.
  split; [exact (maxv_is_max r Hpos)|].
  assert (Hmin : Forall (fun v => PrimFloat.is_nan v = false ->
                   PrimFloat.leb (minv (statsPass r)) v = true)
                  (10000%float :: ringValues r)).
  { constructor; [intros _; exact N1 | exact N3]. }
  split.
  { split; [|exact Hmin].
    destruct N2 as [->|N2]; [left; reflexivity | right; exact N2]. }
  split.
  { intros Hall Hex.
    assert (Hlow : Forall (fun v => PrimFloat.leb (minv (statsPass r)) v = true)
                     (positives r)).
    { apply Forall_forall. intros v Hv. apply list_elem_of_In in Hv.
      pose proof (positives_positive r v Hv) as Hv0.
      unfold positives in Hv. apply filter_In in Hv as [Hv _].
      rewrite Forall_forall in N3. apply N3.
      - apply list_elem_of_In, Hv.
      - apply (f_lt_not_nan _ _ Hv0). }
    split; [|exact Hlow].
    destruct N2 as [N2|N2].
    - exfalso. apply Exists_exists in Hex as (v & Hv & Hlt).
      rewrite Forall_forall in Hlow. specialize (Hlow v Hv).
      rewrite N2 in Hlow.
      pose proof (f_le_lt_trans _ _ _ Hlow Hlt) as Hc.
      rewrite f_lt_irrefl in Hc. discriminate.
    - unfold positives. apply filter_In. split; [exact N2|].
      rewrite Forall_forall in Hall. apply Hall.
      + apply list_elem_of_In, N2.
      + apply (f_le_not_nan _ _ N1). }
  split.
  { unfold average. rewrite Etot, Ecnt, scan_tot, scan_cnt by (simpl; lia).
    fold (positives r). cbn [cnt initStats].
    rewrite Z.add_0_l, int32_small by lia. reflexivity. }
  split.
  { rewrite Elst, scan_lst. reflexivity. }
  intros g p v p' c. apply lst_after_write.
Qed.

Lemma statistics_pass_witness :
  (In (maxv (statsPass ringB)) (positives ringB)
   /\ Forall (fun v => PrimFloat.leb v (maxv (statsPass ringB)) = true)
        (positives ringB))
  /\ (In (minv (statsPass ringB)) (10000%float :: ringValues ringB)
      /\ Forall (fun v => PrimFloat.is_nan v = false ->
                          PrimFloat.leb (minv (statsPass ringB)) v = true)
           (10000%float :: ringValues ringB))
  /\ (Forall (fun v => PrimFloat.is_nan v = false ->
                       PrimFloat.ltb 0%float v = true) (ringValues ringB) ->
      Exists (fun v => PrimFloat.ltb v 10000%float = true) (positives ringB) ->
      In (minv (statsPass ringB)) (positives ringB)
      /\ Forall (fun v => PrimFloat.leb (minv (statsPass ringB)) v = true)
           (positives ringB))
  /\ average (statsPass ringB)
     = PrimFloat.div (fsum (positives ringB))
         (float64_of_int (Z.of_nat (length (positives ringB))))
  /\ lst (statsPass ringB) = List.last (ringValues ringB) 0%float
  /\ (forall g p v p' c,
        collect g p (Some v) = Some (p', c) -> v <> [] ->
        lst (statsPass (ring p')) = List.last v 0%float).
Proof.
  apply (statistics_pass ringB).
  - vm_compute. discriminate.
  - vm_compute. reflexivity.
Defined.

(** C1 as stated fails on the ring that holds [5], [0] and [1, 2], written
    in this order: the minimum kept is the 0, not the least positive value
    1, and [lst] is 2, the last series of the newest sample, not its first
    series 1.  And on a ring whose only value is 20000 the minimum kept is
    the initial 10000. *)
Lemma statistics_not_as_claimed :
  option_map ring
    (collectAll initGlobals {| typ := "multi"; target := "h"; ring := ringNew 3 |}
       [Some [5%float]; Some [0%float]; Some [1%float; 2%float]])
  = Some ringB
  /\ minv (statsPass ringB) = 0%float
  /\ claimedMin ringB = Some 1%float
  /\ lst (statsPass ringB) = 2%float
  /\ claimedLast ringB = Some 1%float
  /\ minv (statsPass [Some [20000%float]]) = 10000%float
  /\ claimedMin [Some [20000%float]] = Some 20000%float.
Proof. vm_compute. repeat split; reflexivity. Qed.

(** ** A panel whose probe stays silent *)

Lemma statsPass_empty (n : Z) : statsPass (ringNew n) = initStats.
Proof.
  unfold statsPass, ringNew, ringDo.
  induction (Z.to_nat n) as [|k IH]; [reflexivity|].
  cbn [replicate fold_left].
  change (statsVisit initStats None) with initStats. exact IH.
Qed.

Lemma drawPass_empty (indefinite : float -> Z) (mx : float) (vs : Z)
    (k : nat) : forall st,
  exists st', drawPass indefinite mx vs (replicate k None) st = Some st'
    /\ d_rd st' = d_rd st.
Proof.
  induction k as [|k IH]; intros st.
  - exists st. split; reflexivity.
  - unfold drawPass. cbn [replicate ringDoM drawVisit assertSample drawSeries].
    destruct (IH {| d_data := []; d_i := add32 (d_i st) 1; d_rd := d_rd st |})
      as (st' & H1 & H2).
    exists st'. split; [exact H1 | exact H2].
Qed.

Lemma collectAll_silent (g : Globals) (p : panel) (k : nat) :
  collectAll g p (replicate k None) = Some p.
Proof. induction k as [|k IH]; [reflexivity | exact IH]. Qed.

(** C8. A panel whose probe never delivers keeps its ring of nil slots,
    however many ticks pass, and every render pass returns: the statistics
    pass counts no positive value, the average is 0/0, a NaN, which goes
    into the statistics label as it is, no line is drawn, and the border
    and the labels are in the error colour. *)
Theorem silent_probe_renders (indefinite : float -> Z) (g : Globals)
    (i : nat) (ty tg : string) (n : Z) (k : nat) (rd : Renderer) :
  let p := {| typ := ty; target := tg; ring := ringNew n |} in
  collectAll g p (replicate k None) = Some p
  /\ cnt (statsPass (ring p)) = 0
  /\ IsNaN (average (statsPass (ring p))) = true
  /\ tickPanel indefinite g i p None rd
     = Some (p, {| drawColor := errColor;
                   frame := frame rd
                     ++ borderOf g (int32 (Z.of_nat i)) tg errColor
                     ++ [statLabelOf (int32 (Z.of_nat i)) errColor
                           initStats] |})
  /\ statLabelOf (int32 (Z.of_nat i)) errColor initStats
     = Text errColor windowMargin
         (add32 (add32 (add32 (add32 (mul32 (int32 (Z.of_nat i)) targetSize) 1)
                          windowMargin) panelHeight) 15)
         (StatLabel 0%float 0%float nan).
Proof.
  cbn zeta. cbn [ring].
  split; [apply collectAll_silent|].
  rewrite statsPass_empty.
  split; [reflexivity|]. split; [reflexivity|]. split; [|reflexivity].
  unfold tickPanel. cbn [collect ring target]. unfold plotRing.
  rewrite statsPass_empty. unfold ringNew.
  match goal with
  | |- context [drawPass indefinite ?mx ?vs (replicate ?m None) ?st] =>
      destruct (drawPass_empty indefinite mx vs m st) as (st' & -> & Hrd)
  end.
  rewrite Hrd. cbn [d_rd].
  unfold drawText, DrawRect, SetDrawColor, borderOf, statLabelOf.
  cbn [frame drawColor]. rewrite <- !app_assoc. reflexivity.
Qed.

(** ** The height of a column *)

Section Columns.

Variable indefinite : float -> Z.

Lemma ringDoM_app {S : Type} (f : S -> Value -> option S) (r1 r2 : Ring) :
  forall s,
  ringDoM f (r1 ++ r2) s
  = match ringDoM f r1 s with
    | Some s' => ringDoM f r2 s'
    | None => None
    end.
Proof.
  induction r1 as [|x r1 IH]; intros s; [reflexivity|].
  simpl. destruct (f s x); [apply IH | reflexivity].
Qed.

Lemma drawSeries_app mx vs i prev (d1 d2 : Sample) : forall j rd,
  drawSeries indefinite mx vs i prev j (d1 ++ d2) rd
  = match drawSeries indefinite mx vs i prev j d1 rd with
    | Some rd1 =>
        drawSeries indefinite mx vs i prev (j + length d1) d2 rd1
    | None => None
    end.
Proof.
  induction d1 as [|v d1 IH]; intros j rd.
  - simpl. rewrite Nat.add_0_r. reflexivity.
  - cbn [app drawSeries].
    destruct (drawValue indefinite mx vs i prev j v rd); [|reflexivity].
    rewrite IH. simpl. rewrite Nat.add_succ_r. reflexivity.
Qed.

(** The segment drawn for a positive value [v] of series [j]. *)
Lemma drawValue_positive mx vs i (prev : Sample) (j : nat) (v : float) rd :
  PrimFloat.ltb 0%float v = true ->
  exists c y1 y2,
    drawValue indefinite mx vs i prev j v rd
    = Some {| drawColor := c;
              frame := frame rd ++ [Line c (add32 windowMargin i) y1
                                           (add32 windowMargin i) y2] |}
    /\ (forall c', plotColors !! j = Some c' -> c = c')
    /\ (j = 0%nat \/ (length prev <= j)%nat ->
        y1 = sub32 (add32 (add32 (add32 vs windowMargin) panelHeight) 13)
               (vh indefinite mx v)
        /\ y2 = add32 (add32 (add32 vs windowMargin) panelHeight) 13)
    /\ (forall q, (0 < j)%nat -> prev !! j = Some q ->
        y1 = sub32 (add32 (add32 (add32 vs windowMargin) panelHeight) 13)
               (Z.min (vh indefinite mx v) (vh indefinite mx q))
        /\ y2 = sub32 (add32 (add32 (add32 vs windowMargin) panelHeight) 13)
                  (Z.max (vh indefinite mx v) (vh indefinite mx q))).
Proof.
  intros Hv. unfold drawValue, chooseColumn, IsNaN.
  destruct (f_lt_not_nan _ _ Hv) as [_ ->]. rewrite Hv.
  assert (Hc : exists c,
    (if (j <? length plotColors)%nat
     then match plotColors !! j with
          | Some c => Some (vh indefinite mx v, SetDrawColor c rd)
          | None => None
          end
     else Some (vh indefinite mx v, rd))
    = Some (vh indefinite mx v, {| drawColor := c; frame := frame rd |})
    /\ forall c', plotColors !! j = Some c' -> c = c').
  { destruct (j <? length plotColors)%nat eqn:Hj.
    - apply Nat.ltb_lt in Hj.
      destruct (lookup_lt_is_Some_2 plotColors j Hj) as [c Hc].
      exists c. rewrite Hc. split; [reflexivity | congruence].
    - apply Nat.ltb_ge in Hj. exists (drawColor rd). split.
      + destruct rd; reflexivity.
      + intros c' Hc'. apply lookup_lt_Some in Hc'. lia. }
  destruct Hc as (c & -> & Hcol).
  destruct ((0 <? j)%nat && (j <? length prev)%nat) eqn:Hj.
  - apply andb_true_iff in Hj as [Hj0 Hj].
    apply Nat.ltb_lt in Hj0. apply Nat.ltb_lt in Hj.
    destruct (lookup_lt_is_Some_2 prev j Hj) as [q Hq]. rewrite Hq.
    eexists c, _, _. split; [reflexivity|]. split; [exact Hcol|]. split.
    + intros [?|?]; lia.
    + intros q' _ [= <-]. split; reflexivity.
  - eexists c, _, _. split; [reflexivity|]. split; [exact Hcol|]. split.
    + intros _. split; reflexivity.
    + intros q Hj0 Hq. apply lookup_lt_Some in Hq.
      apply andb_false_iff in Hj as [Hj|Hj].
      * apply Nat.ltb_ge in Hj. lia.
      * apply Nat.ltb_ge in Hj. lia.
Qed.


End Columns.

(** C5, as the code has it.  Let [v] be a positive value of series [j] in
    some slot of the ring, and [mx] the maximum of the positive values of
    all series and all slots at this tick.  The projected height of [v] is
    [int32((v / mx) * (panelHeight - 2)) - 1], that is
    [int32((v / mx) * 43) - 1].  In the column of its slot, as the line
    number (values before it) + 1 of the chart, [plotRing] draws
    - the segment from the base line up by the projected height, when [j] is
      the first series or the slot visited before has no series [j];
    - otherwise the segment between the projected heights of [v] and of the
      value of series [j] in the slot visited before.
    The colour is [plotColors[j]] when there is one.  Hence under two
    maxima M1 and M2 the heights of the same [v] are
    [int32((v / M1) * 43) - 1] and [int32((v / M2) * 43) - 1]. *)
Theorem column_height (indefinite : float -> Z) (g : Globals)
    (pre post : Ring) (d1 d2 : Sample) (v : float)
    (host : string) (tgtnum : Z) (rd : Renderer) (color : Color) :
  PrimFloat.ltb 0%float v = true ->
  (In (maxv (statsPass (pre ++ Some (d1 ++ v :: d2) :: post))) (positives ((pre ++ Some (d1 ++ v :: d2) :: post)))
   /\ Forall (fun u => PrimFloat.leb u (maxv (statsPass ((pre ++ Some (d1 ++ v :: d2) :: post)))) = true)
        (positives ((pre ++ Some (d1 ++ v :: d2) :: post))))
  /\ vh indefinite (maxv (statsPass ((pre ++ Some (d1 ++ v :: d2) :: post)))) v
     = sub32 (int32_of_float indefinite
                (PrimFloat.mul (PrimFloat.div v (maxv (statsPass ((pre ++ Some (d1 ++ v :: d2) :: post)))))
                   43%float)) 1
  /\ exists rd' c y1 y2 before after,
      plotRing indefinite g ((pre ++ Some (d1 ++ v :: d2) :: post)) host tgtnum rd color = Some rd'
      /\ frame rd' = frame rd ++ borderOf g tgtnum host color
           ++ before
           ++ [Line c (add32 windowMargin (int32 (Z.of_nat (length pre)))) y1
                      (add32 windowMargin (int32 (Z.of_nat (length pre)))) y2]
           ++ after ++ [statLabelOf tgtnum color (statsPass ((pre ++ Some (d1 ++ v :: d2) :: post)))]
      /\ length before = (length (ringValues pre) + length d1)%nat
      /\ forallb isLine before = true /\ forallb isLine after = true
      /\ (forall c', plotColors !! length d1 = Some c' -> c = c')
      /\ (length d1 = 0%nat
          \/ (length (lastSample pre (lastSample ((pre ++ Some (d1 ++ v :: d2) :: post)) [])) <= length d1)%nat ->
          y1 = sub32 (add32 (add32 (add32 (add32 (mul32 tgtnum targetSize) 1)
                                      windowMargin) panelHeight) 13)
                 (vh indefinite (maxv (statsPass ((pre ++ Some (d1 ++ v :: d2) :: post)))) v)
          /\ y2 = add32 (add32 (add32 (add32 (mul32 tgtnum targetSize) 1)
                                   windowMargin) panelHeight) 13)
      /\ (forall q, (0 < length d1)%nat ->
          lastSample pre (lastSample ((pre ++ Some (d1 ++ v :: d2) :: post)) []) !! length d1 = Some q ->
          y1 = sub32 (add32 (add32 (add32 (add32 (mul32 tgtnum targetSize) 1)
                                      windowMargin) panelHeight) 13)
                 (Z.min (vh indefinite (maxv (statsPass ((pre ++ Some (d1 ++ v :: d2) :: post)))) v)
                        (vh indefinite (maxv (statsPass ((pre ++ Some (d1 ++ v :: d2) :: post)))) q))
          /\ y2 = sub32 (add32 (add32 (add32 (add32 (mul32 tgtnum targetSize) 1)
                                      windowMargin) panelHeight) 13)
                    (Z.max (vh indefinite (maxv (statsPass ((pre ++ Some (d1 ++ v :: d2) :: post)))) v)
                           (vh indefinite (maxv (statsPass ((pre ++ Some (d1 ++ v :: d2) :: post)))) q))).
Proof.
  intros Hv.
  set (r := pre ++ Some (d1 ++ v :: d2) :: post).
  assert (Hin : In v (positives r)).
  { unfold positives. apply filter_In. split; [|exact Hv].
    unfold r. rewrite ringValues_app. apply in_or_app. right.
    unfold ringValues. cbn [map List.concat assertSample].
    apply in_or_app. left. apply in_or_app. right. left. reflexivity. }
  split.
  { apply maxv_is_max. intros E. rewrite E in Hin. destruct Hin. }
  split; [reflexivity|].
  unfold plotRing. fold r.
  set (vs := add32 (mul32 tgtnum targetSize) 1).
  set (mx := maxv (statsPass r)).
  set (rd0 := drawText color windowMargin (sub32 (add32 vs windowMargin) 3)
                (HostLabel host)
                (DrawRect windowMargin (add32 (add32 vs windowMargin) 15)
                   (sub32 (windowWidth g) (mul32 windowMargin 2)) panelHeight
                   (SetDrawColor color rd))).
  assert (Hrd0 : frame rd0 = frame rd ++ borderOf g tgtnum host color).
  { unfold rd0, drawText, DrawRect, SetDrawColor, borderOf.
    cbn [frame drawColor]. rewrite <- app_assoc. reflexivity. }
  destruct (statsPass_fields r) as (_ & _ & _ & _ & _ & Hdata).
  rewrite Hdata.
  unfold drawPass, r. rewrite ringDoM_app. fold r.
  destruct (drawPass_total indefinite mx vs pre
              {| d_data := lastSample r []; d_i := 0; d_rd := rd0 |})
    as (st1 & ls1 & E1 & Hi1 & Hd1 & Hf1 & Hl1 & Hn1).
  { simpl. lia. }
  unfold drawPass in E1. rewrite E1. cbn [d_i d_data d_rd] in *.
  rewrite Z.add_0_l in Hi1.
  cbn [ringDoM]. unfold drawVisit at 1. cbn [assertSample].
  rewrite drawSeries_app.
  destruct (drawSeries_total indefinite mx vs (d_i st1) (d_data st1) d1
              0%nat (d_rd st1)) as (rdA & lsA & -> & HfA & HlA & HnA).
  cbn [drawSeries]. rewrite Nat.add_0_l.
  destruct (drawValue_positive indefinite mx vs (d_i st1) (d_data st1)
              (length d1) v rdA Hv)
    as (c & y1 & y2 & -> & Hcol & Hfirst & Hlater).
  match goal with
  | |- context [drawSeries indefinite mx vs ?i ?pv ?j d2 ?x] =>
      destruct (drawSeries_total indefinite mx vs i pv d2 j x)
        as (rdB & lsB & -> & HfB & HlB & _)
  end.
  cbn [frame] in HfB.
  match goal with
  | |- context [ringDoM (drawVisit indefinite ?m ?w) post ?st] =>
      destruct (drawPass_total indefinite m w post st)
        as (st3 & ls3 & E3 & _ & _ & Hf3 & Hl3 & _);
        [cbn [d_i]; apply int32_range|]
  end.
  unfold drawPass in E3. rewrite E3. cbn [d_rd] in Hf3.
  eexists _, c, y1, y2, (ls1 ++ lsA), (lsB ++ ls3).
  split; [reflexivity|].
  rewrite Hi1, Hd1 in *.
  split.
  { unfold drawText at 1. cbn [frame].
    rewrite Hf3, HfB, HfA, Hf1, Hrd0. unfold statLabelOf. fold vs. fold mx.
    rewrite <- !app_assoc. reflexivity. }
  split.
  { rewrite length_app, Hn1, HnA. reflexivity. }
  split; [rewrite forallb_app, Hl1, HlA; reflexivity|].
  split; [rewrite forallb_app, HlB, Hl3; reflexivity|].
  split; [exact Hcol|]. split; [exact Hfirst | exact Hlater].
Qed.

Lemma column_height_witness :
  (In (maxv (statsPass ([Some [1%float; 1%float]] ++ Some ([1%float] ++ 0.5%float :: []) :: []))) (positives (([Some [1%float; 1%float]] ++ Some ([1%float] ++ 0.5%float :: []) :: [])))
   /\ Forall (fun u => PrimFloat.leb u (maxv (statsPass (([Some [1%float; 1%float]] ++ Some ([1%float] ++ 0.5%float :: []) :: [])))) = true)
        (positives (([Some [1%float; 1%float]] ++ Some ([1%float] ++ 0.5%float :: []) :: []))))
  /\ vh amd64 (maxv (statsPass (([Some [1%float; 1%float]] ++ Some ([1%float] ++ 0.5%float :: []) :: [])))) 0.5%float
     = sub32 (int32_of_float amd64
                (PrimFloat.mul (PrimFloat.div 0.5%float (maxv (statsPass (([Some [1%float; 1%float]] ++ Some ([1%float] ++ 0.5%float :: []) :: [])))))
                   43%float)) 1
  /\ exists rd' c y1 y2 before after,
      plotRing amd64 initGlobals (([Some [1%float; 1%float]] ++ Some ([1%float] ++ 0.5%float :: []) :: [])) "h"%string 0 blank (fg initGlobals) = Some rd'
      /\ frame rd' = frame blank ++ borderOf initGlobals 0 "h"%string (fg initGlobals)
           ++ before
           ++ [Line c (add32 windowMargin (int32 (Z.of_nat (length [Some [1%float; 1%float]])))) y1
                      (add32 windowMargin (int32 (Z.of_nat (length [Some [1%float; 1%float]])))) y2]
           ++ after ++ [statLabelOf 0 (fg initGlobals) (statsPass (([Some [1%float; 1%float]] ++ Some ([1%float] ++ 0.5%float :: []) :: [])))]
      /\ length before = (length (ringValues [Some [1%float; 1%float]]) + length [1%float])%nat
      /\ forallb isLine before = true /\ forallb isLine after = true
      /\ (forall c', plotColors !! length [1%float] = Some c' -> c = c')
      /\ (length [1%float] = 0%nat
          \/ (length (lastSample [Some [1%float; 1%float]] (lastSample (([Some [1%float; 1%float]] ++ Some ([1%float] ++ 0.5%float :: []) :: [])) [])) <= length [1%float])%nat ->
          y1 = sub32 (add32 (add32 (add32 (add32 (mul32 0 targetSize) 1)
                                      windowMargin) panelHeight) 13)
                 (vh amd64 (maxv (statsPass (([Some [1%float; 1%float]] ++ Some ([1%float] ++ 0.5%float :: []) :: [])))) 0.5%float)
          /\ y2 = add32 (add32 (add32 (add32 (mul32 0 targetSize) 1)
                                   windowMargin) panelHeight) 13)
      /\ (forall q, (0 < length [1%float])%nat ->
          lastSample [Some [1%float; 1%float]] (lastSample (([Some [1%float; 1%float]] ++ Some ([1%float] ++ 0.5%float :: []) :: [])) []) !! length [1%float] = Some q ->
          y1 = sub32 (add32 (add32 (add32 (add32 (mul32 0 targetSize) 1)
                                      windowMargin) panelHeight) 13)
                 (Z.min (vh amd64 (maxv (statsPass (([Some [1%float; 1%float]] ++ Some ([1%float] ++ 0.5%float :: []) :: [])))) 0.5%float)
                        (vh amd64 (maxv (statsPass (([Some [1%float; 1%float]] ++ Some ([1%float] ++ 0.5%float :: []) :: [])))) q))
          /\ y2 = sub32 (add32 (add32 (add32 (add32 (mul32 0 targetSize) 1)
                                      windowMargin) panelHeight) 13)
                    (Z.max (vh amd64 (maxv (statsPass (([Some [1%float; 1%float]] ++ Some ([1%float] ++ 0.5%float :: []) :: [])))) 0.5%float)
                           (vh amd64 (maxv (statsPass (([Some [1%float; 1%float]] ++ Some ([1%float] ++ 0.5%float :: []) :: [])))) q))).
Proof.
  apply (column_height amd64 initGlobals [Some [1%float; 1%float]] []
           [1%float] [] 0.5%float "h" 0 blank (fg initGlobals)).
  reflexivity.
Defined.

(** C5 as stated fails.  With a single value 1 in the ring, which is then
    the maximum, the column is 42 pixels high (from 22 to the base line 64),
    not [1 / 1 * panelHeight = 45]; under the maxima 1 and 2 the heights of
    the value 1 are 42 and 20, not 45 and 22.5.  And the value 0.5 of the
    second series, next to a slot holding 1 in that series, is not drawn as
    a column on the base line but as the segment from 44 to 22. *)
Lemma height_not_as_claimed :
  chartOf amd64 [Some [1%float]]
    = Some [Line (mkColor 0 255 0 255) 5 22 5 64]
  /\ vh amd64 1%float 1%float = 42
  /\ claimedHeight 1%float 1%float = 45%float
  /\ vh amd64 2%float 1%float = 20
  /\ claimedHeight 2%float 1%float = 22.5%float
  /\ chartOf amd64 [Some [1%float; 1%float]; Some [1%float; 0.5%float]]
    = Some [Line (mkColor 0 255 0 255) 5 22 5 64;
            Line (mkColor 0 0 255 255) 5 44 5 22;
            Line (mkColor 0 255 0 255) 6 22 6 64;
            Line (mkColor 0 0 255 255) 6 44 6 22].
Proof. vm_compute. repeat split; reflexivity. Qed.

(** ** NaN values *)

Lemma sub32_inj (y m k : Z) :
  - 2 ^ 31 <= m < 2 ^ 31 -> - 2 ^ 31 <= k < 2 ^ 31 ->
  sub32 y m = sub32 y k -> m = k.
Proof.
  unfold sub32, int32.
  change (2 ^ 31) with 2147483648. change (2 ^ 32) with 4294967296.
  intros Hm Hk H. Z.div_mod_to_equations. lia.
Qed.

Lemma sub32_0 (y : Z) : - 2 ^ 31 <= y < 2 ^ 31 -> sub32 y 0 = y.
Proof.
  intros H. unfold sub32. rewrite Z.sub_0_r. apply int32_small, H.
Qed.

Lemma sub32_range (a b : Z) : - 2 ^ 31 <= sub32 a b < 2 ^ 31.
Proof. apply int32_range. Qed.

(** A segment between two projected heights is never the full-height
    column: that would need the lower of the two to be 44 and the higher
    to be 0. *)
Lemma segment_not_full (y a b : Z) :
  - 2 ^ 31 <= y < 2 ^ 31 ->
  - 2 ^ 31 <= a < 2 ^ 31 -> - 2 ^ 31 <= b < 2 ^ 31 ->
  (sub32 y (Z.min a b), sub32 y (Z.max a b)) <> fullHeight y.
Proof.
  intros Hy Ha Hb. unfold fullHeight.
  change (sub32 panelHeight 1) with 44. intros [= H1 H2].
  apply sub32_inj in H1; [|lia|lia].
  rewrite <- (sub32_0 y Hy) in H2 at 2.
  apply sub32_inj in H2; lia.
Qed.

Lemma accumulate_nan (s : Stats) (v : float) :
  IsNaN v = true ->
  maxv (accumulate s v) = maxv s /\ minv (accumulate s v) = minv s
  /\ tot (accumulate s v) = tot s /\ cnt (accumulate s v) = cnt s.
Proof.
  unfold IsNaN. intros Hv. unfold accumulate. cbn [maxv minv tot cnt].
  rewrite (f_nan_lt (maxv s) v), (f_nan_lt v (minv s)), (f_nan_lt 0 v);
    auto.
Qed.

(** C3.  A NaN never enters the maximum, the minimum, the sum or the count,
    and it always selects the error colour.  In the first series (and where
    the slot visited before has no such series) it is drawn as the
    full-height column.  In a later series [j] for which the slot visited
    before holds a value, the height [panelHeight - 1] chosen for it is not
    used: the segment drawn joins the projections of the NaN and of that
    value, and is never the full-height column.  On the ring holding
    [1, 1] and [1, NaN] the NaN is drawn from 22 to -2147483583 on amd64 and
    from 65 to 22 on arm64, the full-height column being from 20 to 64. *)
Theorem nan_rendering (indefinite : float -> Z) :
  (forall s v, IsNaN v = true ->
     maxv (accumulate s v) = maxv s /\ minv (accumulate s v) = minv s
     /\ tot (accumulate s v) = tot s /\ cnt (accumulate s v) = cnt s)
  /\ (forall mx vs i prev j v rd, IsNaN v = true ->
       j = 0%nat \/ (length prev <= j)%nat ->
       let y := add32 (add32 (add32 vs windowMargin) panelHeight) 13 in
       drawValue indefinite mx vs i prev j v rd
       = Some {| drawColor := errColor;
                 frame := frame rd
                   ++ [Line errColor (add32 windowMargin i) (fst (fullHeight y))
                                     (add32 windowMargin i) (snd (fullHeight y))] |})
  /\ (forall mx vs i (prev : Sample) j v q rd, IsNaN v = true ->
       (0 < j)%nat -> prev !! j = Some q ->
       let y := add32 (add32 (add32 vs windowMargin) panelHeight) 13 in
       exists y1 y2,
         drawValue indefinite mx vs i prev j v rd
         = Some {| drawColor := errColor;
                   frame := frame rd
                     ++ [Line errColor (add32 windowMargin i) y1
                                       (add32 windowMargin i) y2] |}
         /\ (y1, y2) <> fullHeight y)
  /\ chartOf amd64 ringN
     = Some [Line (mkColor 0 255 0 255) 5 22 5 64;
             Line (mkColor 0 0 255 255) 5 22 5 (-2147483583);
             Line (mkColor 0 255 0 255) 6 22 6 64;
             Line errColor 6 22 6 (-2147483583)]
  /\ chartOf arm64 ringN
     = Some [Line (mkColor 0 255 0 255) 5 22 5 64;
             Line (mkColor 0 0 255 255) 5 65 5 22;
             Line (mkColor 0 255 0 255) 6 22 6 64;
             Line errColor 6 65 6 22]
  /\ fullHeight 64 = (20, 64).
Proof.
  split; [exact accumulate_nan|]. split; [|split].
  - intros mx vs i prev j v rd Hv Hj y.
    unfold drawValue, chooseColumn. rewrite Hv.
    assert (E : (0 <? j)%nat && (j <? length prev)%nat = false).
    { apply andb_false_iff. destruct Hj as [->|Hj]; [left; reflexivity|].
      right. apply Nat.ltb_ge, Hj. }
    rewrite E. reflexivity.
  - intros mx vs i prev j v q rd Hv Hj Hq y.
    unfold drawValue, chooseColumn. rewrite Hv.
    assert (E : (0 <? j)%nat && (j <? length prev)%nat = true).
    { apply andb_true_iff. split; [apply Nat.ltb_lt, Hj|].
      apply Nat.ltb_lt. exact (lookup_lt_Some _ _ _ Hq). }
    rewrite E, Hq. eexists _, _. split; [reflexivity|].
    apply segment_not_full; try apply int32_range.
  - vm_compute. repeat split; reflexivity.
Qed.

(* ================================================================= *)
(** * Further properties *)

(** ** strings.Split at a one-byte separator *)

Lemma Split_nonempty (s : string) (sep : ascii) : Split s sep <> [].
Proof.
  destruct s as [|c s]; simpl; [discriminate|].
  destruct (Ascii.eqb c sep); [discriminate|].
  destruct (Split s sep); discriminate.
Qed.

Lemma concat_cons (sep x : string) (l : list string) :
  l <> [] ->
  String.concat sep (x :: l) = (x ++ sep ++ String.concat sep l)%string.
Proof. destruct l; [contradiction | reflexivity]. Qed.

(** Joining the parts with the separator gives the string back. *)
Lemma Split_join (s : string) (sep : ascii) :
  String.concat (String sep EmptyString) (Split s sep) = s.
Proof.
  induction s as [|c s IH]; [reflexivity|].
  pose proof (Split_nonempty s sep) as Hne.
  simpl. destruct (Ascii.eqb_spec c sep) as [->|Hc].
  - rewrite concat_cons by exact Hne. rewrite IH. reflexivity.
  - destruct (Split s sep) as [|t ts]; [contradiction|].
    destruct ts as [|u ts].
    + simpl in IH |- *. rewrite IH. reflexivity.
    + rewrite concat_cons in IH |- * by discriminate.
      rewrite <- IH at 1. reflexivity.
Qed.

(** No part holds the separator. *)
Lemma Split_parts (s : string) (sep : ascii) :
  Forall (fun t => countByte sep t = 0%nat) (Split s sep).
Proof.
  induction s as [|c s IH]; simpl.
  - constructor; [reflexivity | constructor].
  - destruct (Ascii.eqb c sep) eqn:Hc.
    + constructor; [reflexivity | exact IH].
    + destruct (Split s sep) as [|t ts]; [repeat constructor; simpl; rewrite Hc; reflexivity|].
      inversion IH as [|? ? Ht Hts]; subst.
      constructor; [|exact Hts]. simpl. rewrite Hc. exact Ht.
Qed.

Lemma Split_free (s : string) (sep : ascii) :
  countByte sep s = 0%nat -> Split s sep = [s].
Proof.
  induction s as [|c s IH]; [reflexivity|].
  simpl. destruct (Ascii.eqb c sep); [discriminate|].
  intros H. rewrite (IH H). reflexivity.
Qed.

Lemma Split_app (t x : string) (sep : ascii) :
  countByte sep t = 0%nat ->
  Split (t ++ String sep x) sep = t :: Split x sep.
Proof.
  induction t as [|c t IH]; simpl.
  - intros _. rewrite Ascii.eqb_refl. reflexivity.
  - destruct (Ascii.eqb c sep); [discriminate|].
    intros H. rewrite (IH H). reflexivity.
Qed.

(** A string splits into exactly two parts at its colons when it is
    [t:x] with [t] and [x] free of colons. *)
Lemma Split_two (s t x : string) :
  Split s ":"%char = [t; x]
  <-> s = token (t, x) /\ colonFree t /\ colonFree x.
Proof.
  unfold token, colonFree. cbn [fst snd]. split.
  - intros E. pose proof (Split_join s ":"%char) as J.
    pose proof (Split_parts s ":"%char) as P. rewrite E in J, P.
    apply Forall_cons in P as [Ht P]. apply Forall_cons in P as [Hx _].
    cbn [String.concat] in J. simpl in J. auto.
  - intros (-> & Ht & Hx).
    rewrite (Split_app t x _ Ht), (Split_free x _ Hx). reflexivity.
Qed.

(** ** The probe registry *)

Lemma registered_cases (t : string) :
  registered t = true <-> t = "sine"%string \/ t = "lagsine"%string \/ t = "multi"%string.
Proof.
  unfold registered. rewrite !orb_true_iff, !String.eqb_eq. tauto.
Qed.

Lemma probes_registered (t : string) :
  is_Some (probes !! t) <-> registered t = true.
Proof.
  rewrite registered_cases. unfold probes. split.
  - intros [p H].
    apply lookup_insert_Some in H as [[ <- _]|[_ H]]; [auto|].
    apply lookup_insert_Some in H as [[ <- _]|[_ H]]; [auto|].
    apply lookup_singleton_Some in H as [ <- _]. auto.
  - intros [ -> | [ -> | -> ]]; eexists; vm_compute; reflexivity.
Qed.

Lemma registered_colonFree (t : string) : registered t = true -> colonFree t.
Proof.
  intros H. apply registered_cases in H as [ -> | [ -> | -> ]]; reflexivity.
Qed.

(** ** Which tokens the loop of parsePanels accepts *)

Lemma Split_specOf (arg : string) :
  malformed arg = false ->
  Split arg ":"%char = [fst (specOf arg); snd (specOf arg)].
Proof.
  unfold malformed, specOf. rewrite negb_false_iff, Nat.eqb_eq.
  destruct (Split arg ":") as [|t [|x [|? ?]]]; simpl; try discriminate.
  reflexivity.
Qed.

Lemma checkArg_accepts (arg : string) :
  checkArg arg = None
  <-> arg = token (specOf arg)
      /\ registered (fst (specOf arg)) = true
      /\ colonFree (snd (specOf arg)).
Proof.
  split.
  - intros H. unfold checkArg in H. cbv zeta in H.
    destruct (malformed arg) eqn:Hm; [discriminate|].
    pose proof (Split_specOf arg Hm) as Hs.
    apply Split_two in Hs as (Harg & _ & Hx).
    split; [exact Harg|]. split; [|exact Hx].
    apply probes_registered. unfold specOf. cbn [fst].
    destruct (probes !! nth 0 (Split arg ":") EmptyString);
      [eexists; reflexivity | discriminate].
  - intros (Harg & Hreg & Hx).
    assert (Hs : Split arg ":"%char = [fst (specOf arg); snd (specOf arg)]).
    { apply Split_two. destruct (specOf arg) as [t x]. cbn [fst snd] in *.
      split; [exact Harg|]. split; [apply registered_colonFree, Hreg | exact Hx]. }
    unfold checkArg.
    assert (Hm : malformed arg = false).
    { unfold malformed. rewrite Hs. reflexivity. }
    rewrite Hm. cbv zeta.
    apply probes_registered in Hreg as [p Hp].
    unfold specOf in Hp. cbn [fst] in Hp.
    destruct (probes !! nth 0 (Split arg ":") EmptyString) as [p0|] eqn:E.
    + rewrite (probes_never_fail _ p0 _ E). reflexivity.
    + discriminate.
Qed.

Lemma specOf_token (t x : string) :
  colonFree t -> colonFree x -> specOf (token (t, x)) = (t, x).
Proof.
  intros Ht Hx. unfold specOf.
  assert (E : Split (token (t, x)) ":"%char = [t; x])
    by (apply Split_two; auto).
  rewrite E. reflexivity.
Qed.

Lemma firstError_None (args : list string) :
  firstError args = None <-> Forall (fun a => checkArg a = None) args.
Proof.
  induction args as [|a args IH].
  - split; [constructor | reflexivity].
  - rewrite firstError_cons, Forall_cons.
    destruct (checkArg a) as [e|].
    + split; [discriminate | intros [? _]; discriminate].
    + rewrite IH. tauto.
Qed.

Lemma panelOf_newPanel (g : Globals) (arg : string) :
  Some (panelOf g arg) = newPanel g (specOf arg).
Proof. reflexivity. Qed.

(** X1. [parsePanels] returns panels exactly for a list of 1 to 255 tokens
    that are each [type:target] with a registered type and a target free of
    colons; it then returns one panel per token, in the order of the
    arguments, holding that type and that target and a new ring. *)
Theorem parsePanels_ok_iff (g : Globals) (args : list string)
    (panels : list (option panel)) :
  parsePanels g args = Ok panels
  <-> (1 <= length args <= 255)%nat
      /\ exists specs : list (string * string),
           args = map token specs
           /\ Forall (fun sp => registered (fst sp) = true
                                /\ colonFree (snd sp)) specs
           /\ panels = map (newPanel g) specs.
Proof.
  rewrite parsePanels_spec. split.
  - destruct (Nat.eqb_spec (length args) 0); [discriminate|].
    destruct (Nat.ltb_spec 255 (length args)); [discriminate|].
    destruct (firstError args) eqn:E; [discriminate|].
    intros [= <-]. split; [lia|].
    apply firstError_None in E.
    exists (map specOf args). split; [|split].
    + rewrite map_map. clear -E.
      induction E as [|a args Ha _ IH]; [reflexivity|].
      simpl. apply checkArg_accepts in Ha as (Ha & _). congruence.
    + clear -E. induction E as [|a args Ha _ IH]; simpl; constructor.
      * apply checkArg_accepts in Ha. tauto.
      * exact IH.
    + rewrite map_map. reflexivity.
  - intros (Hlen & specs & -> & Hs & ->).
    destruct (Nat.eqb_spec (length (map token specs)) 0); [lia|].
    destruct (Nat.ltb_spec 255 (length (map token specs))); [lia|].
    assert (E : Forall (fun a => checkArg a = None /\ specOf a = specOf a)
                  (map token specs) /\
                map (fun arg => Some (panelOf g arg)) (map token specs)
                = map (newPanel g) specs).
    { clear -Hs. induction Hs as [|[t x] specs [Ht Hx] _ [IH1 IH2]].
      - split; [constructor | reflexivity].
      - cbn [fst snd] in *. pose proof (registered_colonFree t Ht) as Hct.
        split.
        + constructor; [|exact IH1]. split; [|reflexivity].
          apply checkArg_accepts. rewrite (specOf_token t x Hct Hx). auto.
        + cbn [map]. rewrite IH2, panelOf_newPanel, (specOf_token t x Hct Hx).
          reflexivity. }
    destruct E as [E1 E2].
    assert (E : firstError (map token specs) = None).
    { apply firstError_None. eapply Forall_impl; [exact E1|].
      intros a [Ha _]. exact Ha. }
    rewrite E, E2. reflexivity.
Qed.

(** ** The errors of parsePanels *)

Lemma checkArg_accepted (arg : string) : checkArg arg = None <-> accepted arg.
Proof.
  rewrite checkArg_accepts. unfold accepted. split.
  - intros (H1 & H2 & H3). destruct (specOf arg) as [t x]. eauto.
  - intros (t & x & -> & Ht & Hx).
    rewrite (specOf_token t x (registered_colonFree t Ht) Hx). auto.
Qed.

Lemma checkArg_error (arg : string) (e : error) :
  checkArg arg = Some e <-> tokenError arg e.
Proof.
  unfold tokenError. split.
  - intros H. unfold checkArg in H. cbv zeta in H.
    destruct (malformed arg) eqn:Hm.
    + left. injection H as <-. split; [|reflexivity].
      apply malformed_colons, Hm.
    + right. pose proof (Split_specOf arg Hm) as Hs.
      apply Split_two in Hs as (Harg & Ht & Hx).
      exists (fst (specOf arg)), (snd (specOf arg)).
      split; [exact Harg|]. split; [exact Ht|]. split; [exact Hx|].
      change (nth 0 (Split arg ":") EmptyString) with (fst (specOf arg)) in H.
      destruct (probes !! fst (specOf arg)) as [p|] eqn:E.
      * rewrite (probes_never_fail _ p _ E) in H. discriminate.
      * injection H as <-. split; [|reflexivity].
        destruct (registered (fst (specOf arg))) eqn:R; [|reflexivity].
        apply probes_registered in R as [p Hp].
        pose proof (eq_trans (eq_sym E) Hp). discriminate.
  - intros [[Hc ->]|(t & x & -> & Ht & Hx & Hr & ->)].
    + apply checkArg_malformed, malformed_colons, Hc.
    + assert (Hs : Split (token (t, x)) ":"%char = [t; x])
        by (apply Split_two; auto).
      unfold checkArg, malformed. cbv zeta. rewrite Hs. cbn [length Nat.eqb negb nth].
      destruct (probes !! t) as [p|] eqn:E; [|reflexivity].
      assert (R : registered t = true)
        by (apply probes_registered; eexists; exact E).
      congruence.
Qed.

Lemma firstError_app (pre l : list string) :
  Forall accepted pre -> firstError (pre ++ l) = firstError l.
Proof.
  induction 1 as [|a pre Ha _ IH]; [reflexivity|].
  simpl. rewrite firstError_cons.
  apply checkArg_accepted in Ha. rewrite Ha. exact IH.
Qed.

Lemma firstError_Some (args : list string) (e : error) :
  firstError args = Some e
  <-> exists pre a post, args = pre ++ a :: post
        /\ Forall accepted pre /\ tokenError a e.
Proof.
  split.
  - induction args as [|a args IH]; [discriminate|].
    rewrite firstError_cons. destruct (checkArg a) as [e0|] eqn:E.
    + intros [= ->]. exists [], a, args.
      split; [reflexivity|]. split; [constructor|].
      apply checkArg_error, E.
    + intros H. destruct (IH H) as (pre & b & post & -> & Hpre & Hb).
      exists (a :: pre), b, post. split; [reflexivity|].
      split; [|exact Hb]. constructor; [|exact Hpre].
      apply checkArg_accepted, E.
  - intros (pre & a & post & -> & Hpre & Ha).
    rewrite (firstError_app pre _ Hpre), firstError_cons.
    apply checkArg_error in Ha. rewrite Ha. reflexivity.
Qed.

(** X2. The errors of [parsePanels], all of them: "No args specified" for
    the empty list; "Too many targets specified" for more than 255
    arguments; and otherwise the error of the first token, in the order of
    the arguments, that is not accepted: "Could not parse panel" with the
    token when it does not hold exactly one colon, "Unsupported panel type"
    with its type when the type is not registered.  No other error is
    returned; "Error initializing" never is. *)
Theorem parsePanels_errors (g : Globals) (args : list string) (e : error) :
  parsePanels g args = Err e
  <-> (args = [] /\ e = Errorf "No args specified" [])
      \/ ((255 < length args)%nat
          /\ e = Errorf "Too many targets specified" [])
      \/ ((length args <= 255)%nat
          /\ exists pre a post, args = pre ++ a :: post
               /\ Forall accepted pre /\ tokenError a e).
Proof.
  rewrite parsePanels_spec.
  destruct (Nat.eqb_spec (length args) 0) as [E0|E0].
  { apply length_zero_iff_nil in E0. subst args. split.
    - intros [= <-]. left. auto.
    - intros [[_ ->]|[[H _]|(_ & pre & a & post & H & _)]].
      + reflexivity.
      + simpl in H. lia.
      + destruct pre; discriminate. }
  destruct (Nat.ltb_spec 255 (length args)) as [E1|E1].
  { split.
    - intros [= <-]. right. left. auto.
    - intros [[-> _]|[[_ ->]|(H & _)]].
      + simpl in E0. lia.
      + reflexivity.
      + lia. }
  split.
  - destruct (firstError args) as [e0|] eqn:E; [|discriminate].
    intros [= ->]. right. right. split; [exact E1|].
    apply firstError_Some, E.
  - intros [[-> _]|[[H _]|(_ & H)]].
    + simpl in E0. lia.
    + lia.
    + apply firstError_Some in H. rewrite H. reflexivity.
Qed.

(** ** Start-up *)

Lemma colorOption_Ok (Sscanf : string -> list Z * bool)
    (s failure : string) (c0 c : Color) :
  colorOption Sscanf s failure c0 = Ok c <-> colourTaken Sscanf s c0 c.
Proof.
  unfold colorOption, colourTaken.
  destruct (Nat.eqb_spec (String.length s) 6) as [E|E].
  - destruct (Sscanf s) as [vals err]. split.
    + destruct err; [discriminate|]. cbn [orb].
      destruct vals as [|r [|g [|b [|? ?]]]]; cbn; try discriminate.
      intros [= <-]. right. split; [exact E|]. eauto.
    + intros [[H _]|(_ & r & g & b & [= -> ->] & ->)]; [contradiction|].
      reflexivity.
  - split.
    + intros [= <-]. left. auto.
    + intros [[_ ->]|[H _]]; [reflexivity | contradiction].
Qed.


(** X3. The foreground instance gets past its start-up checks exactly when
    the panels parse and each of the two colour options is either not six
    bytes long, and then ignored, or scanned into three values, which then
    replace R, G and B of the default colour while its alpha stays; the
    window and panel widths are the initial ones. *)
Theorem startup_running (Sscanf : string -> list Z * bool)
    (args : list string) (bgColor fgColor : string)
    (g : Globals) (panels : list (option panel)) :
  startup Sscanf true args bgColor fgColor = Running g panels
  <-> parsePanels initGlobals args = Ok panels
      /\ colourTaken Sscanf bgColor (bg initGlobals) (bg g)
      /\ colourTaken Sscanf fgColor (fg initGlobals) (fg g)
      /\ windowWidth g = 180 /\ windowHeight g = 100 /\ panelWidth g = 170.
Proof.
  unfold startup. cbn [negb].
  destruct (parsePanels initGlobals args) as [ps|e0].
  2:{ split; [discriminate | intros [[=] _]]. }
  destruct (colorOption Sscanf bgColor _ (bg initGlobals)) as [b|e1] eqn:Eb.
  2:{ split; [discriminate|]. intros (_ & Hb & _).
      apply (colorOption_Ok Sscanf bgColor
               "Unable to parse bg background color") in Hb.
      congruence. }
  destruct (colorOption Sscanf fgColor _ (fg initGlobals)) as [f|e2] eqn:Ef.
  2:{ split; [discriminate|]. intros (_ & _ & Hf & _).
      apply (colorOption_Ok Sscanf fgColor
               "Unable to parse fg foreground color") in Hf.
      congruence. }
  apply colorOption_Ok in Eb. apply colorOption_Ok in Ef. split.
  - intros [= <- <-]. cbn. repeat split; assumption.
  - intros ([= ->] & Hb & Hf & Hw & Hh & Hp).
    assert (bg g = b).
    { apply (colorOption_Ok Sscanf bgColor "" ) in Hb.
      apply (colorOption_Ok Sscanf bgColor "" ) in Eb. congruence. }
    assert (fg g = f).
    { apply (colorOption_Ok Sscanf fgColor "" ) in Hf.
      apply (colorOption_Ok Sscanf fgColor "" ) in Ef. congruence. }
    destruct g; cbn in *. subst. reflexivity.
Qed.


(** ** The render loop never panics *)

Section Loop.

Variable indefinite : float -> Z.

Lemma collect_total (g : Globals) (p : panel) (rv : option Sample) :
  ring p <> [] ->
  exists p' c, collect g p rv = Some (p', c)
    /\ shape (Some p') = shape (Some p) /\ ring p' <> [].
Proof.
  intros Hne. destruct rv as [v|].
  - destruct (ring p) as [|x xs] eqn:E; [contradiction|].
    rewrite (collect_received g p v x xs E).
    eexists _, _. split; [reflexivity|]. cbn. split.
    + rewrite E. unfold ringLen. rewrite length_app. cbn.
      do 2 f_equal. lia.
    + destruct xs; discriminate.
  - exists p, errColor. auto.
Qed.

Lemma tickPanel_total (g : Globals) (i : nat) (p : panel)
    (rv : option Sample) (rd : Renderer) :
  ring p <> [] ->
  exists p' rd', tickPanel indefinite g i p rv rd = Some (p', rd')
    /\ shape (Some p') = shape (Some p) /\ ring p' <> [].
Proof.
  intros Hne. unfold tickPanel.
  destruct (collect_total g p rv Hne) as (p' & c & -> & Hs & Hr).
  destruct (plotRing_total indefinite g (ring p') (target p')
              (int32 (Z.of_nat i)) rd c) as (rd' & ls & -> & _).
  eauto.
Qed.

Lemma tickPanels_total (g : Globals) (recv : nat -> option Sample)
    (ps : list (option panel)) : forall i rd,
  usable ps ->
  exists ps' rd', tickPanels indefinite g i ps recv rd = Some (ps', rd')
    /\ map shape ps' = map shape ps /\ usable ps'.
Proof.
  induction ps as [|op ps IH]; intros i rd Hu.
  - exists [], rd. split; [reflexivity|]. split; [reflexivity | constructor].
  - apply Forall_cons in Hu as [(p & -> & Hne) Hu].
    cbn [tickPanels].
    destruct (tickPanel_total g i p (recv i) rd Hne)
      as (p' & rd1 & -> & Hs & Hr).
    destruct (IH (S i) rd1 Hu) as (ps' & rd' & -> & Hss & Hu').
    eexists _, _. split; [reflexivity|]. split.
    + cbn [map]. rewrite Hs, Hss. reflexivity.
    + constructor; [eauto | exact Hu'].
Qed.

Lemma ticks_total (g : Globals) (recvs : list (nat -> option Sample)) :
  forall ps rd, usable ps ->
  exists ps' rd', ticks indefinite g ps recvs rd = Some (ps', rd')
    /\ map shape ps' = map shape ps /\ usable ps'.
Proof.
  induction recvs as [|recv rest IH]; intros ps rd Hu.
  - exists ps, rd. auto.
  - cbn [ticks]. unfold tick.
    match goal with
    | |- context [tickPanels indefinite g 0 ps recv ?r] =>
        destruct (tickPanels_total g recv ps 0 r Hu)
          as (ps1 & rd1 & -> & Hs1 & Hu1)
    end.
    destruct (IH ps1 rd1 Hu1) as (ps' & rd' & -> & Hs & Hu').
    eexists _, _. split; [reflexivity|]. split; [congruence | exact Hu'].
Qed.

End Loop.

Lemma parsed_usable (g : Globals) (args : list string)
    (panels : list (option panel)) :
  0 < sub32 (panelWidth g) 2 ->
  parsePanels g args = Ok panels -> usable panels.
Proof.
  intros Hw H. rewrite parsePanels_spec in H.
  destruct (length args =? 0)%nat; [discriminate|].
  destruct (255 <? length args)%nat; [discriminate|].
  destruct (firstError args); [discriminate|].
  injection H as <-.
  unfold usable. apply Forall_forall. intros op Hin.
  apply list_elem_of_In, in_map_iff in Hin as (sp & <- & _).
  eexists. split; [reflexivity|]. cbn [ring panelOf]. unfold ringNew.
  destruct (Z.to_nat (sub32 (panelWidth g) 2)) eqn:E; [lia | discriminate].
Qed.

(** X5. The render loop never panics on the panels that [parsePanels]
    returned at start-up: whatever the channels deliver and for however many
    ticks, under any colours and window width, every tick returns, and it
    leaves the number and order of the panels, their types and targets and
    the capacity 168 of their rings as they were. *)
Theorem render_loop_never_panics (indefinite : float -> Z)
    (args : list string) (panels : list (option panel)) (g : Globals)
    (recvs : list (nat -> option Sample)) (rd : Renderer) :
  parsePanels initGlobals args = Ok panels ->
  exists ps' rd',
    ticks indefinite g panels recvs rd = Some (ps', rd')
    /\ map shape ps' = map shape panels
    /\ map shape panels
       = map (fun a => Some (fst (specOf a), snd (specOf a), 168%nat)) args.
Proof.
  intros H.
  assert (Hu : usable panels).
  { apply (parsed_usable initGlobals args); [reflexivity | exact H]. }
  destruct (ticks_total indefinite g recvs panels rd Hu)
    as (ps' & rd' & Ht & Hs & _).
  exists ps', rd'. split; [exact Ht|]. split; [exact Hs|].
  rewrite parsePanels_spec in H.
  destruct (length args =? 0)%nat; [discriminate|].
  destruct (255 <? length args)%nat; [discriminate|].
  destruct (firstError args); [discriminate|].
  injection H as <-. rewrite map_map. reflexivity.
Qed.

Lemma render_loop_never_panics_witness :
  exists ps' rd',
    ticks amd64 initGlobals
      [Some (panelOf initGlobals "multi:host")]
      [fun _ => Some [1%float; nan; 0%float]; fun _ => None;
       fun _ => Some []] blank
    = Some (ps', rd')
    /\ map shape ps' = map shape [Some (panelOf initGlobals "multi:host")]
    /\ map shape [Some (panelOf initGlobals "multi:host")]
       = map (fun a => Some (fst (specOf a), snd (specOf a), 168%nat))
           ["multi:host"%string].
Proof.
  apply (render_loop_never_panics amd64 ["multi:host"%string]).
  vm_compute. reflexivity.
Defined.

(** ** What a tick draws *)

Section Frames.

Variable indefinite : float -> Z.

Lemma prepend_DrawLine l x1 y1 x2 y2 rd :
  DrawLine x1 y1 x2 y2 (prepend l rd) = prepend l (DrawLine x1 y1 x2 y2 rd).
Proof. unfold DrawLine, prepend. cbn. rewrite app_assoc. reflexivity. Qed.

Lemma drawValue_prepend l mx vs i prev j v rd :
  drawValue indefinite mx vs i prev j v (prepend l rd)
  = option_map (prepend l) (drawValue indefinite mx vs i prev j v rd).
Proof.
  unfold drawValue, chooseColumn.
  destruct (IsNaN v).
  { change (SetDrawColor errColor (prepend l rd))
      with (prepend l (SetDrawColor errColor rd)).
    destruct ((0 <? j)%nat && (j <? length prev)%nat);
      [destruct (prev !! j); [|reflexivity]|];
      rewrite prepend_DrawLine; reflexivity. }
  destruct (PrimFloat.ltb 0 v).
  - destruct (j <? length plotColors)%nat.
    + destruct (plotColors !! j) as [c|]; [|reflexivity].
      change (SetDrawColor c (prepend l rd))
        with (prepend l (SetDrawColor c rd)).
      destruct ((0 <? j)%nat && (j <? length prev)%nat);
        [destruct (prev !! j); [|reflexivity]|];
        rewrite prepend_DrawLine; reflexivity.
    + destruct ((0 <? j)%nat && (j <? length prev)%nat);
        [destruct (prev !! j); [|reflexivity]|];
        rewrite prepend_DrawLine; reflexivity.
  - change (SetDrawColor (mkColor 0 255 0 255) (prepend l rd))
      with (prepend l (SetDrawColor (mkColor 0 255 0 255) rd)).
    destruct ((0 <? j)%nat && (j <? length prev)%nat);
      [destruct (prev !! j); [|reflexivity]|];
      rewrite prepend_DrawLine; reflexivity.
Qed.

Lemma drawSeries_prepend l mx vs i prev d : forall j rd,
  drawSeries indefinite mx vs i prev j d (prepend l rd)
  = option_map (prepend l) (drawSeries indefinite mx vs i prev j d rd).
Proof.
  induction d as [|v d IH]; intros j rd; [reflexivity|].
  cbn [drawSeries]. rewrite drawValue_prepend.
  destruct (drawValue indefinite mx vs i prev j v rd); [apply IH | reflexivity].
Qed.



End Frames.





(** ** The plot of panel [t] is the plot of panel 0, moved down *)

Ltac int32_solve :=
  unfold add32, sub32, mul32, int32;
  change (2 ^ 31) with 2147483648; change (2 ^ 32) with 4294967296;
  Z.div_mod_to_equations; lia.

Section Translation.

Variable indefinite : float -> Z.

Lemma DrawLine_shift d x y1 y2 y1' y2' rd :
  y1' = int32 (y1 + d) -> y2' = int32 (y2 + d) ->
  DrawLine x y1' x y2' (shiftR d rd) = shiftR d (DrawLine x y1 x y2 rd).
Proof.
  intros -> ->. unfold DrawLine, shiftR. cbn.
  rewrite map_app. reflexivity.
Qed.

Lemma drawValue_shift d mx vs vs' i prev j v rd :
  vs' = int32 (vs + d) ->
  drawValue indefinite mx vs' i prev j v (shiftR d rd)
  = option_map (shiftR d) (drawValue indefinite mx vs i prev j v rd).
Proof.
  intros ->. unfold drawValue.
  assert (Hc : chooseColumn indefinite mx j v (shiftR d rd)
               = option_map (fun hr => (fst hr, shiftR d (snd hr)))
                   (chooseColumn indefinite mx j v rd)).
  { unfold chooseColumn. destruct (IsNaN v); [reflexivity|].
    destruct (PrimFloat.ltb 0 v); [|reflexivity].
    destruct (j <? length plotColors)%nat; [|reflexivity].
    destruct (plotColors !! j); reflexivity. }
  rewrite Hc.
  destruct (chooseColumn indefinite mx j v rd) as [[h rd1]|]; [|reflexivity].
  cbn [option_map fst snd].
  destruct ((0 <? j)%nat && (j <? length prev)%nat).
  - destruct (prev !! j) as [q|]; [|reflexivity].
    cbn [option_map]. f_equal. apply DrawLine_shift; int32_solve.
  - cbn [option_map]. f_equal. apply DrawLine_shift; int32_solve.
Qed.

Lemma drawSeries_shift d mx vs vs' i prev (s : Sample) :
  vs' = int32 (vs + d) -> forall j rd,
  drawSeries indefinite mx vs' i prev j s (shiftR d rd)
  = option_map (shiftR d) (drawSeries indefinite mx vs i prev j s rd).
Proof.
  intros Hvs. induction s as [|v s IH]; intros j rd; [reflexivity|].
  cbn [drawSeries]. rewrite (drawValue_shift d mx vs vs') by exact Hvs.
  destruct (drawValue indefinite mx vs i prev j v rd); [apply IH | reflexivity].
Qed.

Lemma drawPass_shift d mx vs vs' (r : Ring) :
  vs' = int32 (vs + d) -> forall dd i rd,
  drawPass indefinite mx vs' r
    {| d_data := dd; d_i := i; d_rd := shiftR d rd |}
  = option_map
      (fun st => {| d_data := d_data st; d_i := d_i st;
                    d_rd := shiftR d (d_rd st) |})
      (drawPass indefinite mx vs r {| d_data := dd; d_i := i; d_rd := rd |}).
Proof.
  intros Hvs. unfold drawPass.
  induction r as [|x r IH]; intros dd i rd; [reflexivity|].
  cbn [ringDoM]. unfold drawVisit at 1 3. cbn [d_data d_i d_rd].
  rewrite (drawSeries_shift d mx vs vs') by exact Hvs.
  destruct (drawSeries indefinite mx vs i dd 0 (assertSample x) rd);
    [apply IH | reflexivity].
Qed.

(** X7. The plot of a ring as panel number [t] is its plot as panel 0 with
    every primitive moved down by [t * targetSize] rows (in [int32]
    arithmetic): the same rectangle, labels, colours and columns, 90 rows
    lower for each panel above it. *)
Theorem plot_translation (g : Globals) (r : Ring) (host : string)
    (t : Z) (color : Color) :
  plotted indefinite g r host t color
  = map (shiftY (t * targetSize)) (plotted indefinite g r host 0 color).
Proof.
  unfold plotted, plotRing.
  set (d := t * targetSize).
  set (vs := add32 (mul32 0 targetSize) 1).
  set (vs' := add32 (mul32 t targetSize) 1).
  assert (Hvs : vs' = int32 (vs + d)).
  { unfold vs, vs', d, targetSize. int32_solve. }
  set (r0 := drawText color windowMargin (sub32 (add32 vs windowMargin) 3)
               (HostLabel host)
               (DrawRect windowMargin (add32 (add32 vs windowMargin) 15)
                  (sub32 (windowWidth g) (mul32 windowMargin 2)) panelHeight
                  (SetDrawColor color {| drawColor := color; frame := [] |}))).
  assert (Hr : drawText color windowMargin (sub32 (add32 vs' windowMargin) 3)
                 (HostLabel host)
                 (DrawRect windowMargin (add32 (add32 vs' windowMargin) 15)
                    (sub32 (windowWidth g) (mul32 windowMargin 2)) panelHeight
                    (SetDrawColor color {| drawColor := color; frame := [] |}))
               = shiftR d r0).
  { unfold r0, drawText, DrawRect, SetDrawColor, shiftR. cbn.
    rewrite Hvs. f_equal. f_equal; [|f_equal]; f_equal;
      unfold windowMargin; int32_solve. }
  rewrite Hr, (drawPass_shift d _ vs vs' r Hvs).
  destruct (drawPass indefinite (maxv (statsPass r)) vs r
              {| d_data := data (statsPass r); d_i := 0; d_rd := r0 |})
    as [st|]; [|reflexivity].
  cbn [option_map d_rd]. unfold drawText, shiftR. cbn.
  rewrite map_app. cbn. do 3 f_equal.
  rewrite Hvs. unfold windowMargin, panelHeight. int32_solve.
Qed.

End Translation.

(** ** Where the line of a value is in the plot *)

Section Values.

Variable indefinite : float -> Z.

(** After the values of a sample that is not empty, the draw colour is the
    colour of the line drawn last. *)
Lemma drawSeries_color mx vs i prev (d : Sample) : forall j rd rd',
  d <> [] ->
  drawSeries indefinite mx vs i prev j d rd = Some rd' ->
  exists l c x1 y1 x2 y2,
    frame rd' = frame rd ++ l ++ [Line c x1 y1 x2 y2]
    /\ drawColor rd' = c.
Proof.
  induction d as [|v d IH]; intros j rd rd' Hne H; [contradiction|].
  cbn [drawSeries] in H.
  destruct (drawValue_total indefinite mx vs i prev j v rd)
    as (c & y1 & y2 & E).
  rewrite E in H. destruct d as [|w d].
  - injection H as <-. exists [], c. eexists _, _, _, _.
    split; reflexivity.
  - destruct (IH (S j) _ rd' ltac:(discriminate) H)
      as (l & c' & x1 & z1 & x2 & z2 & Hf & Hc).
    cbn [frame] in Hf. eexists (_ :: l), c', x1, z1, x2, z2.
    split; [|exact Hc]. rewrite Hf, <- app_assoc. reflexivity.
Qed.

Lemma plotRing_value (g : Globals) (pre post : Ring) (d1 d2 : Sample)
    (v : float) (host : string) (tgtnum : Z) (rd : Renderer)
    (color : Color) :
  exists rd' rdA rdB before after,
    plotRing indefinite g (pre ++ Some (d1 ++ v :: d2) :: post)
      host tgtnum rd color = Some rd'
    /\ drawValue indefinite
         (maxv (statsPass (pre ++ Some (d1 ++ v :: d2) :: post)))
         (add32 (mul32 tgtnum targetSize) 1)
         (int32 (Z.of_nat (length pre)))
         (lastSample pre
            (lastSample (pre ++ Some (d1 ++ v :: d2) :: post) []))
         (length d1) v rdA = Some rdB
    /\ frame rdA = frame rd ++ borderOf g tgtnum host color ++ before
    /\ frame rd'
       = frame rdB ++ after
         ++ [statLabelOf tgtnum color
               (statsPass (pre ++ Some (d1 ++ v :: d2) :: post))]
    /\ length before = (length (ringValues pre) + length d1)%nat
    /\ forallb isLine before = true /\ forallb isLine after = true
    /\ (d1 <> [] ->
        exists l c x1 y1 x2 y2,
          before = l ++ [Line c x1 y1 x2 y2] /\ drawColor rdA = c).
Proof.
  set (r := pre ++ Some (d1 ++ v :: d2) :: post).
  unfold plotRing. fold r.
  set (vs := add32 (mul32 tgtnum targetSize) 1).
  set (mx := maxv (statsPass r)).
  set (rd0 := drawText color windowMargin (sub32 (add32 vs windowMargin) 3)
                (HostLabel host)
                (DrawRect windowMargin (add32 (add32 vs windowMargin) 15)
                   (sub32 (windowWidth g) (mul32 windowMargin 2)) panelHeight
                   (SetDrawColor color rd))).
  assert (Hrd0 : frame rd0 = frame rd ++ borderOf g tgtnum host color).
  { unfold rd0, drawText, DrawRect, SetDrawColor, borderOf.
    cbn [frame drawColor]. rewrite <- app_assoc. reflexivity. }
  destruct (statsPass_fields r) as (_ & _ & _ & _ & _ & Hdata).
  rewrite Hdata.
  unfold drawPass, r. rewrite ringDoM_app. fold r.
  destruct (drawPass_total indefinite mx vs pre
              {| d_data := lastSample r []; d_i := 0; d_rd := rd0 |})
    as (st1 & ls1 & E1 & Hi1 & Hd1 & Hf1 & Hl1 & Hn1).
  { simpl. lia. }
  unfold drawPass in E1. rewrite E1. cbn [d_i d_data d_rd] in *.
  rewrite Z.add_0_l in Hi1.
  cbn [ringDoM]. unfold drawVisit at 1. cbn [assertSample].
  rewrite drawSeries_app.
  destruct (drawSeries_total indefinite mx vs (d_i st1) (d_data st1) d1
              0%nat (d_rd st1)) as (rdA & lsA & EA & HfA & HlA & HnA).
  rewrite EA. cbn [drawSeries]. rewrite Nat.add_0_l.
  destruct (drawValue indefinite mx vs (d_i st1) (d_data st1)
              (length d1) v rdA) as [rdB|] eqn:EB.
  2:{ destruct (drawValue_total indefinite mx vs (d_i st1) (d_data st1)
                  (length d1) v rdA) as (? & ? & ? & E). congruence. }
  match goal with
  | |- context [drawSeries indefinite mx vs ?i ?pv ?j d2 ?x] =>
      destruct (drawSeries_total indefinite mx vs i pv d2 j x)
        as (rdC & lsB & -> & HfB & HlB & _)
  end.
  match goal with
  | |- context [ringDoM (drawVisit indefinite ?m ?w) post ?st] =>
      destruct (drawPass_total indefinite m w post st)
        as (st3 & ls3 & E3 & _ & _ & Hf3 & Hl3 & _);
        [cbn [d_i]; apply int32_range|]
  end.
  unfold drawPass in E3. rewrite E3. cbn [d_rd] in Hf3.
  rewrite Hi1, Hd1 in EB.
  eexists _, rdA, rdB, (ls1 ++ lsA), (lsB ++ ls3).
  split; [reflexivity|]. split; [exact EB|]. split; [|split; [|split; [|split; [|split]]]].
  - rewrite HfA, Hf1, Hrd0, <- !app_assoc. reflexivity.
  - unfold drawText at 1. cbn [frame]. rewrite Hf3, HfB.
    unfold statLabelOf. fold vs. fold mx. rewrite <- !app_assoc. reflexivity.
  - rewrite length_app, Hn1, HnA. reflexivity.
  - rewrite forallb_app, Hl1, HlA. reflexivity.
  - rewrite forallb_app, HlB, Hl3. reflexivity.
  - intros Hne.
    destruct (drawSeries_color mx vs (d_i st1) (d_data st1) d1 0%nat
                (d_rd st1) rdA Hne EA) as (l & c & x1 & y1 & x2 & y2 & Hf & Hc).
    exists (ls1 ++ l), c, x1, y1, x2, y2. split; [|exact Hc].
    rewrite HfA in Hf. apply app_inv_head in Hf. rewrite Hf, app_assoc.
    reflexivity.
Qed.

End Values.

(** ** Values without a reading, spare series, joined segments *)

Section Kinds.

Variable indefinite : float -> Z.

Lemma drawValue_no_reading mx vs i (prev : Sample) (j : nat) (v : float) rd :
  IsNaN v = false -> PrimFloat.ltb 0%float v = false ->
  j = 0%nat \/ (length prev <= j)%nat ->
  drawValue indefinite mx vs i prev j v rd
  = Some {| drawColor := mkColor 0 255 0 255;
            frame := frame rd
              ++ [Line (mkColor 0 255 0 255) (add32 windowMargin i)
                    (sub32 (add32 (add32 (add32 vs windowMargin)
                                     panelHeight) 13) 2)
                    (add32 windowMargin i)
                    (add32 (add32 (add32 vs windowMargin) panelHeight) 13)] |}.
Proof.
  intros Hn Hv Hj. unfold drawValue, chooseColumn. rewrite Hn, Hv.
  assert (E : (0 <? j)%nat && (j <? length prev)%nat = false).
  { apply andb_false_iff. destruct Hj as [->|Hj]; [left; reflexivity|].
    right. apply Nat.ltb_ge, Hj. }
  rewrite E. reflexivity.
Qed.

Lemma drawValue_spare mx vs i (prev : Sample) (j : nat) (v : float) rd :
  PrimFloat.ltb 0%float v = true -> (length plotColors <= j)%nat ->
  exists y1 y2,
    drawValue indefinite mx vs i prev j v rd
    = Some {| drawColor := drawColor rd;
              frame := frame rd
                ++ [Line (drawColor rd) (add32 windowMargin i) y1
                      (add32 windowMargin i) y2] |}.
Proof.
  intros Hv Hj. unfold drawValue, chooseColumn, IsNaN.
  destruct (f_lt_not_nan _ _ Hv) as [_ ->]. rewrite Hv.
  apply Nat.ltb_ge in Hj. rewrite Hj.
  destruct ((0 <? j)%nat && (j <? length prev)%nat) eqn:E.
  - apply andb_true_iff in E as [_ E]. apply Nat.ltb_lt in E.
    destruct (lookup_lt_is_Some_2 prev j E) as [q ->].
    eexists _, _. reflexivity.
  - eexists _, _. reflexivity.
Qed.

Lemma drawValue_joined mx vs i (prev : Sample) (j : nat) (v q : float) rd :
  (0 < j)%nat -> prev !! j = Some q ->
  exists c,
    drawValue indefinite mx vs i prev j v rd
    = Some {| drawColor := c;
              frame := frame rd
                ++ [Line c (add32 windowMargin i)
                      (sub32 (add32 (add32 (add32 vs windowMargin)
                                       panelHeight) 13)
                         (Z.min (vh indefinite mx v) (vh indefinite mx q)))
                      (add32 windowMargin i)
                      (sub32 (add32 (add32 (add32 vs windowMargin)
                                       panelHeight) 13)
                         (Z.max (vh indefinite mx v) (vh indefinite mx q)))] |}.
Proof.
  intros Hj Hq. unfold drawValue.
  assert (E : (0 <? j)%nat && (j <? length prev)%nat = true).
  { apply andb_true_iff. split; [apply Nat.ltb_lt, Hj|].
    apply Nat.ltb_lt. exact (lookup_lt_Some _ _ _ Hq). }
  assert (Hc : exists h rd1, chooseColumn indefinite mx j v rd = Some (h, rd1)
                             /\ frame rd1 = frame rd).
  { unfold chooseColumn.
    destruct (IsNaN v); [eauto|].
    destruct (PrimFloat.ltb 0 v); [|eauto].
    destruct (j <? length plotColors)%nat eqn:Hl; [|eauto].
    apply Nat.ltb_lt in Hl.
    destruct (lookup_lt_is_Some_2 plotColors j Hl) as [c ->]. eauto. }
  destruct Hc as (h & rd1 & -> & Hf). rewrite E, Hq.
  exists (drawColor rd1). unfold DrawLine. rewrite Hf. reflexivity.
Qed.

End Kinds.

(** X8. A value that is neither NaN nor positive (zero, a negative number,
    minus infinity), in the first series or in a series that the slot
    visited before does not have, is drawn as a column of 2 rows on the
    base line, in the fixed green 00FF00, whatever the maximum is. *)
Theorem no_reading_column (indefinite : float -> Z) (g : Globals)
    (pre post : Ring) (d1 d2 : Sample) (v : float)
    (host : string) (tgtnum : Z) (rd : Renderer) (color : Color) :
  IsNaN v = false -> PrimFloat.ltb 0%float v = false ->
  length d1 = 0%nat
  \/ (length (lastSample pre
               (lastSample (pre ++ Some (d1 ++ v :: d2) :: post) []))
      <= length d1)%nat ->
  exists rd' before after,
    plotRing indefinite g (pre ++ Some (d1 ++ v :: d2) :: post)
      host tgtnum rd color = Some rd'
    /\ frame rd'
       = frame rd ++ borderOf g tgtnum host color ++ before
         ++ [Line (mkColor 0 255 0 255)
               (add32 windowMargin (int32 (Z.of_nat (length pre))))
               (sub32 (add32 (add32 (add32 (add32 (mul32 tgtnum targetSize) 1)
                                       windowMargin) panelHeight) 13) 2)
               (add32 windowMargin (int32 (Z.of_nat (length pre))))
               (add32 (add32 (add32 (add32 (mul32 tgtnum targetSize) 1)
                                windowMargin) panelHeight) 13)]
         ++ after
         ++ [statLabelOf tgtnum color
               (statsPass (pre ++ Some (d1 ++ v :: d2) :: post))]
    /\ length before = (length (ringValues pre) + length d1)%nat
    /\ forallb isLine before = true /\ forallb isLine after = true.
Proof.
  intros Hn Hv Hj.
  destruct (plotRing_value indefinite g pre post d1 d2 v host tgtnum rd color)
    as (rd' & rdA & rdB & before & after & E & EB & HA & HB & Hlen & Hb & Ha & _).
  rewrite (drawValue_no_reading indefinite _ _ _ _ _ v rdA Hn Hv Hj) in EB.
  injection EB as <-. cbn [frame] in HB.
  exists rd', before, after. split; [exact E|]. split; [|auto].
  rewrite HB, HA, <- !app_assoc. reflexivity.
Qed.

Lemma no_reading_column_witness :
  exists rd' before after,
    plotRing amd64 initGlobals
      ([Some [2%float]] ++ Some ([] ++ 0%float :: [3%float]) :: [])
      "h" 0 blank (fg initGlobals) = Some rd'
    /\ frame rd'
       = frame blank ++ borderOf initGlobals 0 "h" (fg initGlobals) ++ before
         ++ [Line (mkColor 0 255 0 255)
               (add32 windowMargin (int32 (Z.of_nat (length [Some [2%float]]))))
               (sub32 (add32 (add32 (add32 (add32 (mul32 0 targetSize) 1)
                                       windowMargin) panelHeight) 13) 2)
               (add32 windowMargin (int32 (Z.of_nat (length [Some [2%float]]))))
               (add32 (add32 (add32 (add32 (mul32 0 targetSize) 1)
                                windowMargin) panelHeight) 13)]
         ++ after
         ++ [statLabelOf 0 (fg initGlobals)
               (statsPass ([Some [2%float]]
                           ++ Some ([] ++ 0%float :: [3%float]) :: []))]
    /\ length before
       = (length (ringValues [Some [2%float]]) + length (@nil float))%nat
    /\ forallb isLine before = true /\ forallb isLine after = true.
Proof.
  apply (no_reading_column amd64 initGlobals [Some [2%float]] []
           [] [3%float] 0%float "h" 0 blank (fg initGlobals)).
  - reflexivity.
  - reflexivity.
  - left. reflexivity.
Defined.

(** X9. The palette has three colours.  A positive value of a fourth or
    later series does not set the draw colour: its line has the colour of
    the line drawn just before it, the one of the series before it in the
    same sample. *)
Theorem spare_series_colour (indefinite : float -> Z) (g : Globals)
    (pre post : Ring) (d1 d2 : Sample) (v : float)
    (host : string) (tgtnum : Z) (rd : Renderer) (color : Color) :
  PrimFloat.ltb 0%float v = true ->
  (length plotColors <= length d1)%nat ->
  exists rd' l c x1 z1 x2 z2 y1 y2 after,
    plotRing indefinite g (pre ++ Some (d1 ++ v :: d2) :: post)
      host tgtnum rd color = Some rd'
    /\ frame rd'
       = frame rd ++ borderOf g tgtnum host color ++ l
         ++ [Line c x1 z1 x2 z2;
             Line c (add32 windowMargin (int32 (Z.of_nat (length pre)))) y1
                    (add32 windowMargin (int32 (Z.of_nat (length pre)))) y2]
         ++ after
         ++ [statLabelOf tgtnum color
               (statsPass (pre ++ Some (d1 ++ v :: d2) :: post))]
    /\ S (length l) = (length (ringValues pre) + length d1)%nat
    /\ forallb isLine l = true /\ forallb isLine after = true.
Proof.
  intros Hv Hj.
  destruct (plotRing_value indefinite g pre post d1 d2 v host tgtnum rd color)
    as (rd' & rdA & rdB & before & after & E & EB & HA & HB & Hlen & Hb & Ha & Hlast).
  destruct Hlast as (l & c & x1 & z1 & x2 & z2 & -> & Hc).
  { intros ->. simpl in Hj. lia. }
  destruct (drawValue_spare indefinite
              (maxv (statsPass (pre ++ Some (d1 ++ v :: d2) :: post)))
              (add32 (mul32 tgtnum targetSize) 1)
              (int32 (Z.of_nat (length pre)))
              (lastSample pre
                 (lastSample (pre ++ Some (d1 ++ v :: d2) :: post) []))
              (length d1) v rdA Hv Hj) as (y1 & y2 & E2).
  rewrite E2 in EB. injection EB as <-. cbn [frame] in HB.
  exists rd', l, c, x1, z1, x2, z2, y1, y2, after.
  split; [exact E|]. split; [|split; [|split]].
  - rewrite HB, HA, Hc, <- !app_assoc. reflexivity.
  - rewrite length_app in Hlen. simpl in Hlen. lia.
  - rewrite forallb_app in Hb. apply andb_true_iff in Hb. apply Hb.
  - exact Ha.
Qed.

Lemma spare_series_colour_witness :
  exists rd' l c x1 z1 x2 z2 y1 y2 after,
    plotRing amd64 initGlobals
      ([] ++ Some ([1%float; 2%float; 3%float] ++ 4%float :: []) :: [])
      "h" 0 blank (fg initGlobals) = Some rd'
    /\ frame rd'
       = frame blank ++ borderOf initGlobals 0 "h" (fg initGlobals) ++ l
         ++ [Line c x1 z1 x2 z2;
             Line c (add32 windowMargin (int32 (Z.of_nat (length (@nil (option (list float))))))) y1
                    (add32 windowMargin (int32 (Z.of_nat (length (@nil (option (list float))))))) y2]
         ++ after
         ++ [statLabelOf 0 (fg initGlobals)
               (statsPass ([] ++ Some ([1%float; 2%float; 3%float]
                                       ++ 4%float :: []) :: []))]
    /\ S (length l)
       = (length (ringValues []) + length [1%float; 2%float; 3%float])%nat
    /\ forallb isLine l = true /\ forallb isLine after = true.
Proof.
  apply (spare_series_colour amd64 initGlobals [] []
           [1%float; 2%float; 3%float] [] 4%float "h" 0 blank (fg initGlobals)).
  - reflexivity.
  - simpl. lia.
Defined.

(** The fourth series of a sample of four positive values is orange, as the
    third.  (The ring holds one slot, so the slot visited before it is
    itself and the later series are joined to their own height.) *)
Example four_series_chart :
  chartOf amd64 [Some [1%float; 2%float; 3%float; 4%float]]
  = Some [Line (mkColor 0 255 0 255) 5 55 5 64;
          Line (mkColor 0 0 255 255) 5 44 5 44;
          Line (mkColor 255 127 0 255) 5 33 5 33;
          Line (mkColor 255 127 0 255) 5 22 5 22].
Proof. vm_compute. reflexivity. Qed.

(** X10. Whatever the kind of a value (positive, without a reading, NaN),
    when it belongs to a series [j >= 1] that the slot visited before also
    has, the height chosen for it is not used: the segment drawn joins the
    projected heights of the value and of the value [q] of that series in
    the slot visited before.  The slot visited before the first one is the
    last one, the newest sample, which the statistics pass leaves in
    [data]. *)
Theorem joined_segment (indefinite : float -> Z) (g : Globals)
    (pre post : Ring) (d1 d2 : Sample) (v q : float)
    (host : string) (tgtnum : Z) (rd : Renderer) (color : Color) :
  (0 < length d1)%nat ->
  lastSample pre (lastSample (pre ++ Some (d1 ++ v :: d2) :: post) [])
    !! length d1 = Some q ->
  exists rd' c before after,
    plotRing indefinite g (pre ++ Some (d1 ++ v :: d2) :: post)
      host tgtnum rd color = Some rd'
    /\ frame rd'
       = frame rd ++ borderOf g tgtnum host color ++ before
         ++ [Line c (add32 windowMargin (int32 (Z.of_nat (length pre))))
               (sub32 (add32 (add32 (add32 (add32 (mul32 tgtnum targetSize) 1)
                                       windowMargin) panelHeight) 13)
                  (Z.min (vh indefinite
                            (maxv (statsPass
                                     (pre ++ Some (d1 ++ v :: d2) :: post))) v)
                         (vh indefinite
                            (maxv (statsPass
                                     (pre ++ Some (d1 ++ v :: d2) :: post))) q)))
               (add32 windowMargin (int32 (Z.of_nat (length pre))))
               (sub32 (add32 (add32 (add32 (add32 (mul32 tgtnum targetSize) 1)
                                       windowMargin) panelHeight) 13)
                  (Z.max (vh indefinite
                            (maxv (statsPass
                                     (pre ++ Some (d1 ++ v :: d2) :: post))) v)
                         (vh indefinite
                            (maxv (statsPass
                                     (pre ++ Some (d1 ++ v :: d2) :: post))) q)))]
         ++ after
         ++ [statLabelOf tgtnum color
               (statsPass (pre ++ Some (d1 ++ v :: d2) :: post))]
    /\ length before = (length (ringValues pre) + length d1)%nat
    /\ forallb isLine before = true /\ forallb isLine after = true.
Proof.
  intros Hj Hq.
  destruct (plotRing_value indefinite g pre post d1 d2 v host tgtnum rd color)
    as (rd' & rdA & rdB & before & after & E & EB & HA & HB & Hlen & Hb & Ha & _).
  destruct (drawValue_joined indefinite
              (maxv (statsPass (pre ++ Some (d1 ++ v :: d2) :: post)))
              (add32 (mul32 tgtnum targetSize) 1)
              (int32 (Z.of_nat (length pre))) _ (length d1) v q rdA Hj Hq)
    as (c & E2).
  rewrite E2 in EB. injection EB as <-. cbn [frame] in HB.
  exists rd', c, before, after. split; [exact E|]. split; [|auto].
  rewrite HB, HA, <- !app_assoc. reflexivity.
Qed.

Lemma joined_segment_witness :
  exists rd' c before after,
    plotRing amd64 initGlobals
      ([] ++ Some ([1%float] ++ 0%float :: []) :: [Some [1%float; 2%float]])
      "h" 0 blank (fg initGlobals) = Some rd'
    /\ frame rd'
       = frame blank ++ borderOf initGlobals 0 "h" (fg initGlobals) ++ before
         ++ [Line c (add32 windowMargin (int32 (Z.of_nat (length (@nil (option (list float)))))))
               (sub32 (add32 (add32 (add32 (add32 (mul32 0 targetSize) 1)
                                       windowMargin) panelHeight) 13)
                  (Z.min (vh amd64
                            (maxv (statsPass
                                     ([] ++ Some ([1%float] ++ 0%float :: [])
                                         :: [Some [1%float; 2%float]]))) 0%float)
                         (vh amd64
                            (maxv (statsPass
                                     ([] ++ Some ([1%float] ++ 0%float :: [])
                                         :: [Some [1%float; 2%float]]))) 2%float)))
               (add32 windowMargin (int32 (Z.of_nat (length (@nil (option (list float)))))))
               (sub32 (add32 (add32 (add32 (add32 (mul32 0 targetSize) 1)
                                       windowMargin) panelHeight) 13)
                  (Z.max (vh amd64
                            (maxv (statsPass
                                     ([] ++ Some ([1%float] ++ 0%float :: [])
                                         :: [Some [1%float; 2%float]]))) 0%float)
                         (vh amd64
                            (maxv (statsPass
                                     ([] ++ Some ([1%float] ++ 0%float :: [])
                                         :: [Some [1%float; 2%float]]))) 2%float)))]
         ++ after
         ++ [statLabelOf 0 (fg initGlobals)
               (statsPass ([] ++ Some ([1%float] ++ 0%float :: [])
                              :: [Some [1%float; 2%float]]))]
    /\ length before
       = (length (ringValues []) + length [1%float])%nat
    /\ forallb isLine before = true /\ forallb isLine after = true.
Proof.
  apply (joined_segment amd64 initGlobals [] [Some [1%float; 2%float]]
           [1%float] [] 0%float 2%float "h" 0 blank (fg initGlobals)).
  - simpl. lia.
  - reflexivity.
Defined.

(** The value 0 of the second series in the first column: joined to the 2
    of the newest sample, from row 65 to row 22, not a 2-row column. *)
Example first_column_chart :
  chartOf amd64 [Some [1%float; 0%float]; Some [1%float; 2%float]]
  = Some [Line (mkColor 0 255 0 255) 5 44 5 64;
          Line (mkColor 0 255 0 255) 5 65 5 22;
          Line (mkColor 0 255 0 255) 6 44 6 64;
          Line (mkColor 0 0 255 255) 6 65 6 22].
Proof. vm_compute. reflexivity. Qed.

(** ** A ring without a positive value *)

(** X11. When the ring holds no positive value (nil slots, zeros, negative
    values, NaN), the statistics pass ends with the maximum 0, the count 0,
    the sum 0 and the average 0/0, a NaN: the label shows M=0.0 and A=NaN,
    and every projected height is computed by a division by 0. *)
Theorem no_positive_value (r : Ring) :
  positives r = [] ->
  maxv (statsPass r) = 0%float
  /\ cnt (statsPass r) = 0
  /\ tot (statsPass r) = 0%float
  /\ average (statsPass r) = nan
  /\ lst (statsPass r) = List.last (ringValues r) 0%float.
Proof.
  intros Hp.
  destruct (statsPass_fields r) as (Emax & _ & Elst & Etot & Ecnt & _).
  destruct (scan_max (ringValues r) initStats) as (_ & M2 & _);
    [reflexivity|]. cbn zeta in M2. rewrite <- Emax in M2.
  fold (positives r) in M2. rewrite Hp in M2.
  assert (Hm : maxv (statsPass r) = 0%float)
    by (destruct M2 as [M2|[]]; exact M2).
  assert (Hc : cnt (statsPass r) = 0).
  { rewrite Ecnt, scan_cnt by (simpl; lia).
    fold (positives r). rewrite Hp. reflexivity. }
  assert (Ht : tot (statsPass r) = 0%float).
  { rewrite Etot, scan_tot. fold (positives r). rewrite Hp. reflexivity. }
  split; [exact Hm|]. split; [exact Hc|]. split; [exact Ht|]. split.
  - unfold average. rewrite Ht, Hc. reflexivity.
  - rewrite Elst, scan_lst. reflexivity.
Qed.

Lemma no_positive_value_witness :
  maxv (statsPass [Some [0%float; nan]; None; Some [(-3)%float]]) = 0%float
  /\ cnt (statsPass [Some [0%float; nan]; None; Some [(-3)%float]]) = 0
  /\ tot (statsPass [Some [0%float; nan]; None; Some [(-3)%float]]) = 0%float
  /\ average (statsPass [Some [0%float; nan]; None; Some [(-3)%float]]) = nan
  /\ lst (statsPass [Some [0%float; nan]; None; Some [(-3)%float]])
     = List.last (ringValues [Some [0%float; nan]; None; Some [(-3)%float]])
         0%float.
Proof.
  apply (no_positive_value [Some [0%float; nan]; None; Some [(-3)%float]]).
  reflexivity.
Defined.

(** ** The columns of the chart *)

Section ColumnsOfChart.

Variable indefinite : float -> Z.




End ColumnsOfChart.


(** ** The chart does not depend on the colour of the panel *)

Section ChartColour.

Variable indefinite : float -> Z.

(** The first value of a sample always sets the draw colour. *)
Lemma drawValue_first mx vs i (prev : Sample) (v : float) :
  exists c y1 y2, forall rd,
    drawValue indefinite mx vs i prev 0 v rd
    = Some {| drawColor := c;
              frame := frame rd ++ [Line c (add32 windowMargin i) y1
                                           (add32 windowMargin i) y2] |}.
Proof.
  unfold drawValue, chooseColumn. cbn [Nat.ltb Nat.leb andb].
  set (y := add32 (add32 (add32 vs windowMargin) panelHeight) 13).
  destruct (IsNaN v).
  { exists errColor, (sub32 y (sub32 panelHeight 1)), y.
    intros rd. reflexivity. }
  destruct (PrimFloat.ltb 0 v).
  - exists (mkColor 0 255 0 255), (sub32 y (vh indefinite mx v)), y.
    intros rd. reflexivity.
  - exists (mkColor 0 255 0 255), (sub32 y 2), y.
    intros rd. reflexivity.
Qed.

Lemma prepend_frame (rd : Renderer) :
  rd = prepend (frame rd) {| drawColor := drawColor rd; frame := [] |}.
Proof. destruct rd. unfold prepend. cbn. rewrite app_nil_r. reflexivity. Qed.

(** What the values of one slot add to the frame is the same from any two
    renderers. *)
Lemma drawSeries_lines mx vs i prev (d : Sample) :
  exists ls, forallb isLine ls = true /\ forall rd,
    exists c, drawSeries indefinite mx vs i prev 0 d rd
              = Some {| drawColor := c; frame := frame rd ++ ls |}.
Proof.
  destruct d as [|v d].
  - exists []. split; [reflexivity|]. intros rd. exists (drawColor rd).
    cbn. rewrite app_nil_r. destruct rd; reflexivity.
  - destruct (drawValue_first mx vs i prev v) as (c & y1 & y2 & Hv).
    destruct (drawSeries_total indefinite mx vs i prev d 1%nat
                {| drawColor := c;
                   frame := [Line c (add32 windowMargin i) y1
                                    (add32 windowMargin i) y2] |})
      as (rdR & lsR & ER & HfR & HlR & _).
    cbn [frame] in HfR.
    exists (Line c (add32 windowMargin i) y1 (add32 windowMargin i) y2 :: lsR).
    split; [exact HlR|]. intros rd. exists (drawColor rdR).
    cbn [drawSeries]. rewrite Hv.
    change {| drawColor := c;
              frame := frame rd ++ [Line c (add32 windowMargin i) y1
                                           (add32 windowMargin i) y2] |}
      with (prepend (frame rd)
              {| drawColor := c;
                 frame := [Line c (add32 windowMargin i) y1
                                  (add32 windowMargin i) y2] |}).
    rewrite drawSeries_prepend, ER. cbn. unfold prepend. rewrite HfR.
    reflexivity.
Qed.

Lemma drawPass_lines mx vs (r : Ring) : forall dd i,
  exists ls, forallb isLine ls = true /\ forall rd,
    exists st, drawPass indefinite mx vs r
                 {| d_data := dd; d_i := i; d_rd := rd |} = Some st
               /\ frame (d_rd st) = frame rd ++ ls.
Proof.
  unfold drawPass.
  induction r as [|x r IH]; intros dd i.
  - exists []. split; [reflexivity|]. intros rd. eexists. split; [reflexivity|].
    cbn. rewrite app_nil_r. reflexivity.
  - destruct (drawSeries_lines mx vs i dd (assertSample x)) as (ls1 & Hl1 & H1).
    destruct (IH (assertSample x) (add32 i 1)) as (ls2 & Hl2 & H2).
    exists (ls1 ++ ls2). split; [rewrite forallb_app, Hl1, Hl2; reflexivity|].
    intros rd. cbn [ringDoM]. unfold drawVisit at 1. cbn [d_data d_i d_rd].
    destruct (H1 rd) as [c ->].
    destruct (H2 {| drawColor := c; frame := frame rd ++ ls1 |})
      as (st & -> & Hf).
    exists st. split; [reflexivity|]. rewrite Hf. cbn.
    rewrite <- app_assoc. reflexivity.
Qed.

(** X13. The line segments of a plot do not depend on the colour the panel
    is plotted in: only the border rectangle and the two labels take that
    colour.  A panel that turns stale is therefore redrawn with exactly the
    chart of the tick before, and only its frame and labels change to the
    error colour. *)
Theorem chart_colour_free (g : Globals) (r : Ring) (host : string)
    (tgtnum : Z) :
  exists ls,
    forallb isLine ls = true
    /\ forall color,
         plotted indefinite g r host tgtnum color
         = borderOf g tgtnum host color ++ ls
           ++ [statLabelOf tgtnum color (statsPass r)].
Proof.
  destruct (drawPass_lines (maxv (statsPass r))
              (add32 (mul32 tgtnum targetSize) 1) r (data (statsPass r)) 0)
    as (ls & Hl & H).
  exists ls. split; [exact Hl|]. intros color.
  unfold plotted, plotRing.
  match goal with
  | |- context [drawPass indefinite _ _ r
                  {| d_data := _; d_i := 0; d_rd := ?r0 |}] =>
      destruct (H r0) as (st & -> & Hf)
  end.
  unfold drawText at 1. cbn [frame]. rewrite Hf.
  unfold drawText, DrawRect, SetDrawColor, borderOf, statLabelOf.
  cbn [frame drawColor app]. rewrite <- ?app_assoc. reflexivity.
Qed.

End ChartColour.
